(** * BitcoinMoonphase: the moon-phase / price-range aggregation

    A shallow embedding of [processData], the effect body of
    [src/components/MoonBitcoinAnalysis.js], together with the parts of the
    JavaScript runtime and of lodash that it calls.

    - JavaScript numbers are IEEE-754 binary64 values: Rocq's primitive
      [float], whose [+], [/] and comparisons are the hardware ones.
    - A parsed CSV cell ([Papa.parse] with [dynamicTyping]) is a [JS.value]:
      a number, [null] (empty field), a boolean, or [undefined] (the column
      is absent from the row).  Text cells are outside the model.
    - [new Date(row.date)] is represented by its time value, [option Z]
      milliseconds since the epoch, [None] being [Invalid Date].
    - React state ([processedData], [periodAverage]) is threaded explicitly;
      a JavaScript exception is the [Throw] outcome. *)

From Stdlib Require Import ZArith List String Bool Lia Floats.
From Stdlib Require Uint63.
From Stdlib Require Import Sorted Ascii DecimalString.
From Stdlib Require DecimalN.
Import ListNotations.

Local Open Scope Z_scope.

(** ** Outcomes: normal completion or a thrown [TypeError] *)

Inductive outcome (A : Type) : Type :=
| Normal (a : A)
| Throw.

Arguments Normal {A} a.
Arguments Throw {A}.

Definition bind {A B} (c : outcome A) (k : A -> outcome B) : outcome B :=
  match c with
  | Normal a => k a
  | Throw => Throw
  end.

Notation "x <- c ;; k" := (bind c (fun x => k))
  (at level 61, c at next level, right associativity).

Fixpoint mapM {A B} (f : A -> outcome B) (l : list A) : outcome (list B) :=
  match l with
  | [] => Normal []
  | a :: rest => b <- f a ;; bs <- mapM f rest ;; Normal (b :: bs)
  end.

(** ** Integers with the two infinities *)

Inductive extended : Type :=
| MinusInfinity
| Finite (z : Z)
| PlusInfinity.

Definition extended_compare (a b : extended) : comparison :=
  match a, b with
  | MinusInfinity, MinusInfinity => Eq
  | MinusInfinity, _ => Lt
  | Finite _, MinusInfinity => Gt
  | Finite x, Finite y => x ?= y
  | Finite _, PlusInfinity => Lt
  | PlusInfinity, PlusInfinity => Eq
  | PlusInfinity, _ => Gt
  end.

Definition extended_leb (a b : extended) : bool :=
  match extended_compare a b with
  | Gt => false
  | _ => true
  end.

Definition extended_ltb (a b : extended) : bool :=
  match extended_compare a b with
  | Lt => true
  | _ => false
  end.

Definition signed (neg : bool) (z : Z) : Z := if neg then - z else z.

(** ** JavaScript values and coercions *)

Module JS.

(** The values of a cell as [dynamicTyping] reads it: a number, a boolean,
    [null] for an empty field, and [undefined] for a column the row does
    not have.  A cell that stays a text is not among them. *)
Inductive value : Type :=
| Undefined
| Null
| Bool (b : bool)
| Num (x : float).

(** [ToNumber]: [undefined] is NaN, [null] is +0, [true] is 1. *)
Definition ToNumber (v : value) : float :=
  match v with
  | Undefined => nan
  | Null => 0%float
  | Bool b => if b then 1%float else 0%float
  | Num x => x
  end.

(** The global [isNaN(v)]: coerces with [ToNumber] first. *)
Definition isNaN (v : value) : bool := PrimFloat.is_nan (ToNumber v).

(** The global [parseFloat(v)]: parses [ToString(v)].  The texts
    "undefined", "null", "true" and "false" parse to NaN; the text of a
    number parses back to that number, except that -0 prints as "0". *)
Definition parseFloat (v : value) : float :=
  match v with
  | Num x => if PrimFloat.is_zero x then 0%float else x
  | _ => nan
  end.

(** The operator [a + b] on values none of which is a string. *)
Definition add (a b : value) : value := Num (ToNumber a + ToNumber b).

(** A time value: [Some t] milliseconds since the epoch, [None] for
    [Invalid Date]. *)
Definition Time : Type := option Z.

(** [a >= b] on two [Date] objects: false as soon as one is invalid. *)
Definition ge (a b : Time) : bool :=
  match a, b with
  | Some x, Some y => y <=? x
  | _, _ => false
  end.

(** [Array.prototype.slice(start)] with an integral [start]. *)
Definition slice {A} (start : Z) (l : list A) : list A :=
  let len := Z.of_nat (List.length l) in
  let k := if start <? 0 then Z.max (len + start) 0 else Z.min start len in
  skipn (Z.to_nat k) l.

(** The array length as a number. *)
Definition length_number {A} (l : list A) : float :=
  PrimFloat.of_uint63 (Uint63.of_Z (Z.of_nat (List.length l))).

End JS.

(** ** [Number.prototype.toFixed(2)] and [Number] of its result *)

Module Fixed.

(** What [x.toFixed(2)] prints, before it is laid out as text. *)
Inductive t : Type :=
| NaN
| Infinity (neg : bool)
| Decimal (neg : bool) (n : Z)                (* [n] hundredths *)
| Shortest (neg : bool) (m : positive) (e : Z) (* at least 1e21: [m * 2^e] *).

(** The integer [n] for which [n / 100 - m * 2^e] is closest to zero, the
    larger one on a tie. *)
Definition hundredths (m : positive) (e : Z) : Z :=
  if 0 <=? e then Z.pos m * 2 ^ e * 100
  else (Z.pos m * 200 + 2 ^ (- e)) / 2 ^ (1 - e).

Definition of_float (x : float) : t :=
  match Prim2SF x with
  | S754_nan => NaN
  | S754_infinity s => Infinity s
  | S754_zero _ => Decimal false 0
  | S754_finite s m e =>
      if (1e21 <=? abs x)%float then Shortest s m e
      else Decimal s (hundredths m e)
  end.

Definition digits (n : Z) : string :=
  NilZero.string_of_uint (N.to_uint (Z.to_N n)).

Definition two_digits (n : Z) : string :=
  if n <? 10 then ("0" ++ digits n)%string else digits n.

(** [Number::toString] of [m * 2^e >= 1e21]: the fewest decimal digits [s]
    and the power [p] with [s * 10^p] rounding to the number, searched from
    the largest power down.  [lo] and [hi] bound the reals that round to it,
    included when the mantissa is even. *)
Fixpoint shortest_from (p : nat) (lo hi v : Z) (incl : bool) : Z * nat :=
  let t := 10 ^ Z.of_nat p in
  let c := v / t in
  let ok s :=
    let w := s * t in
    if incl then (lo <=? w) && (w <=? hi) else (lo <? w) && (w <? hi) in
  let pick :=
    match ok c, ok (c + 1) with
    | true, true =>
        let d0 := v - c * t in
        let d1 := (c + 1) * t - v in
        if d0 <? d1 then Some c
        else if d1 <? d0 then Some (c + 1)
        else Some (if Z.even c then c else c + 1)
    | true, false => Some c
    | false, true => Some (c + 1)
    | false, false => None
    end in
  match pick, p with
  | Some s, _ => (s, p)
  | None, S p' => shortest_from p' lo hi v incl
  | None, O => (v, O)
  end.

Definition shortest (m : positive) (e : Z) : Z * nat :=
  let v := Z.pos m * 2 ^ e in
  let hi := v + 2 ^ (e - 1) in
  let lo := if (Z.pos m =? 2 ^ 52) then v - 2 ^ (e - 2) else v - 2 ^ (e - 1) in
  shortest_from 330 lo hi v (Z.even (Z.pos m)).

Definition exponential (m : positive) (e : Z) : string :=
  let '(s, p) := shortest m e in
  let ds := digits s in
  let n := Z.of_nat (String.length ds) + Z.of_nat p in
  match ds with
  | EmptyString => ds
  | String d EmptyString => (String d "e+" ++ digits (n - 1))%string
  | String d rest => (String d "." ++ rest ++ "e+" ++ digits (n - 1))%string
  end.

Definition show (f : t) : string :=
  match f with
  | NaN => "NaN"
  | Infinity neg => if neg then "-Infinity" else "Infinity"
  | Decimal neg n =>
      ((if neg then "-" else "") ++ digits (n / 100) ++ "." ++ two_digits (n mod 100))%string
  | Shortest neg m e => ((if neg then "-" else "") ++ exponential m e)%string
  end.

(** The binary64 value nearest to [p / q] ([0 <= p], [0 < q]), ties to an
    even mantissa. *)
Definition nearest (p q : Z) : float :=
  if p =? 0 then 0%float
  else
    let k := Z.log2 p - Z.log2 q in
    let e0 := Z.max (k - 53) (-1074) in
    let quo e := if 0 <=? e then p / (q * 2 ^ e) else (p * 2 ^ (- e)) / q in
    let e := if 2 ^ 53 <=? quo e0 then e0 + 1 else e0 in
    let num := if 0 <=? e then p else p * 2 ^ (- e) in
    let den := if 0 <=? e then q * 2 ^ e else q in
    let m := num / den in
    let r := num mod den in
    let m' :=
      if 2 * r <? den then m
      else if den <? 2 * r then m + 1
      else if Z.even m then m else m + 1 in
    match m' with
    | Z.pos pm => SF2Prim (S754_finite false pm e)
    | _ => 0%float
    end.

(** [Number(s)] for the text [s = show f]. *)
Definition Number (f : t) : float :=
  match f with
  | NaN => nan
  | Infinity neg => if neg then neg_infinity else infinity
  | Decimal neg n => if neg then (- nearest n 100)%float else nearest n 100
  | Shortest neg m e => SF2Prim (S754_finite neg m e)
  end.

(** The number a printed value stands for, in hundredths: the decimal
    itself, and for the exponential form the binary64 number it reads back
    to.  NaN stands for no number. *)
Definition cents (f : t) : option extended :=
  match f with
  | NaN => None
  | Infinity neg => Some (if neg then MinusInfinity else PlusInfinity)
  | Decimal neg n => Some (Finite (signed neg n))
  | Shortest neg m e => Some (Finite (signed neg (Z.pos m * 2 ^ e * 100)))
  end.

(** [f <= g] as numbers; false when one of them is NaN. *)
Definition leb (f g : t) : bool :=
  match cents f, cents g with
  | Some a, Some b => extended_leb a b
  | _, _ => false
  end.

End Fixed.

(** [x.toFixed(2)] *)
Definition toFixed2 (x : float) : string := Fixed.show (Fixed.of_float x).

(** ** lodash: [_.mean], [_.max], [_.min], [_.groupBy], [_.sortBy] *)

Module Lodash.

(** [baseSum(array, identity)]: [undefined] entries are skipped, the first
    other entry starts the sum as it is, the rest are added with [+]. *)
Fixpoint baseSum_from (result : JS.value) (array : list JS.value) : JS.value :=
  match array with
  | [] => result
  | current :: rest =>
      let result' :=
        match current with
        | JS.Undefined => result
        | _ => match result with
               | JS.Undefined => current
               | _ => JS.add result current
               end
        end in
      baseSum_from result' rest
  end.

Definition baseSum (array : list JS.value) : JS.value :=
  baseSum_from JS.Undefined array.

(** [_.mean(array)]: NaN for an empty array, else [baseSum / length]. *)
Definition mean (array : list JS.value) : float :=
  match array with
  | [] => nan
  | _ => (JS.ToNumber (baseSum array) / JS.length_number array)%float
  end.

(** [baseExtremum(array, identity, comparator)]: the first entry that is
    not NaN starts, a later one replaces it when the comparator says so. *)
Fixpoint baseExtremum_from (comparator : float -> float -> bool)
    (computed : option float) (array : list float) : option float :=
  match array with
  | [] => computed
  | current :: rest =>
      let take :=
        match computed with
        | None => negb (PrimFloat.is_nan current)
        | Some c => comparator current c
        end in
      baseExtremum_from comparator (if take then Some current else computed) rest
  end.

(** [baseGt] and [baseLt] *)
Definition baseGt (value other : float) : bool := (other <? value)%float.
Definition baseLt (value other : float) : bool := (value <? other)%float.

(** [_.max] and [_.min]; [None] is [undefined]. *)
Definition max (array : list float) : option float :=
  baseExtremum_from baseGt None array.
Definition min (array : list float) : option float :=
  baseExtremum_from baseLt None array.

(** [_.groupBy(collection, key)]: an object from property key to the array
    of the items under it, kept here as an association list in the order
    the keys first appear. *)
Fixpoint assign {A} (key : string) (item : A) (result : list (string * list A))
    : list (string * list A) :=
  match result with
  | [] => [(key, [item])]
  | (k, items) :: rest =>
      if String.eqb k key then (k, items ++ [item]) :: rest
      else (k, items) :: assign key item rest
  end.

Definition groupBy {A} (key : A -> string) (collection : list A)
    : list (string * list A) :=
  fold_left (fun result item => assign (key item) item result) collection [].

(** [_.sortBy(collection, iteratee)]: a stable sort on a numeric key. *)
Fixpoint insert {A} (key : A -> Z) (x : A) (sorted : list A) : list A :=
  match sorted with
  | [] => [x]
  | y :: rest =>
      if key x <=? key y then x :: y :: rest else y :: insert key x rest
  end.

Definition sortBy {A} (key : A -> Z) (collection : list A) : list A :=
  fold_right (insert key) [] collection.

End Lodash.

(** [array.indexOf(x)] on an array of strings; -1 when absent. *)
Fixpoint indexOf_from (i : Z) (x : string) (array : list string) : Z :=
  match array with
  | [] => -1
  | y :: rest => if String.eqb y x then i else indexOf_from (i + 1) x rest
  end.

Definition indexOf (array : list string) (x : string) : Z :=
  indexOf_from 0 x array.

(** [x.toFixed(2)] on a value that may be [undefined]: a [TypeError] then. *)
Definition toFixed2_of (x : option float) : outcome string :=
  match x with
  | Some v => Normal (toFixed2 v)
  | None => Throw
  end.

(** ** The component's data *)

(** A parsed CSV row.  [date] holds the time value of [new Date(row.date)];
    [phase] is the phase cell as a property key (a row of the price file has
    none, and the code never reads it there). *)
Module Row.
Record t : Type := make {
  date : JS.Time;
  phase : string;
  price_range_percent : JS.value
}.
End Row.

(** One element of [processedData].  [periodAvg] is [None] on the items of
    [defaultData], which do not have the property. *)
Module Entry.
Record t : Type := make {
  phase : string;
  avgRange : string;
  maxRange : string;
  minRange : string;
  count : nat;
  periodAvg : option string
}.
End Entry.

(** The two pieces of React state that [processData] sets. *)
Record State : Type := {
  processedData : list Entry.t;
  periodAverage : float
}.

Definition initialState : State :=
  {| processedData := []; periodAverage := 0%float |}.

Definition phaseOrder : list string :=
  ["New Moon"; "First Quarter"; "Full Moon"; "Last Quarter"]%string.

Definition periods : list Z := [1; 3; 6; 12; 24; 36; 48; 60; 72; 84].

(** ** [processData], step by step *)

Definition newMoons (data : list Row.t) : list JS.Time :=
  map Row.date (filter (fun row => String.eqb (Row.phase row) "New Moon") data).

Definition relevantNewMoons (data : list Row.t) (selectedPeriod : Z)
    : list JS.Time :=
  JS.slice (- selectedPeriod - 1) (newMoons data).

(** [new Date(relevantNewMoons[0])]; [new Date(undefined)] is invalid. *)
Definition startDate (data : list Row.t) (selectedPeriod : Z) : JS.Time :=
  match relevantNewMoons data selectedPeriod with
  | [] => None
  | d :: _ => d
  end.

Definition relevantRows (start : JS.Time) (rows : list Row.t) : list Row.t :=
  filter (fun row => JS.ge (Row.date row) start) rows.

Definition relevantMoonData (data : list Row.t) (selectedPeriod : Z) :=
  relevantRows (startDate data selectedPeriod) data.

Definition relevantBitcoinData (data bitcoinData : list Row.t)
    (selectedPeriod : Z) :=
  relevantRows (startDate data selectedPeriod) bitcoinData.

Definition periodMean_of (relevantBitcoin : list Row.t) : float :=
  Lodash.mean
    (filter (fun range => negb (JS.isNaN range))
       (map Row.price_range_percent relevantBitcoin)).

Definition periodMean (data bitcoinData : list Row.t) (selectedPeriod : Z)
    : float :=
  periodMean_of (relevantBitcoinData data bitcoinData selectedPeriod).

Definition defaultData : list Entry.t :=
  map (fun phase => Entry.make phase "0.00" "0.00" "0.00" 0 None) phaseOrder.

Definition validRanges (entries : list Row.t) : list float :=
  filter (fun range => negb (PrimFloat.is_nan range))
    (map (fun entry => JS.parseFloat (Row.price_range_percent entry)) entries).

(** The callback of [Object.entries(groupedData).map]. *)
Definition summarize (periodMean : float) (group : string * list Row.t)
    : outcome Entry.t :=
  let '(phase, entries) := group in
  let valid := validRanges entries in
  match valid with
  | [] =>
      Normal (Entry.make phase "0.00" "0.00" "0.00" (List.length valid)
                (Some (toFixed2 periodMean)))
  | _ =>
      let avgRange := toFixed2 (Lodash.mean (map JS.Num valid)) in
      maxRange <- toFixed2_of (Lodash.max valid) ;;
      minRange <- toFixed2_of (Lodash.min valid) ;;
      Normal (Entry.make phase avgRange maxRange minRange (List.length valid)
                (Some (toFixed2 periodMean)))
  end.

(** [Object.entries(groupedData).map(...)].  JavaScript lists the keys of
    an object that look like array indices first; [merge] below looks an
    item up by its phase and a key occurs once, so the order of the items
    does not reach the result. *)
Definition processed (periodMean : float) (relevantMoon : list Row.t)
    : outcome (list Entry.t) :=
  mapM (summarize periodMean) (Lodash.groupBy Row.phase relevantMoon).

(** The callback of [defaultData.map]: the processed item of the same
    phase, else the default one, with [periodAvg] set. *)
Definition merge (periodMean : float) (processedItems : list Entry.t)
    (defaultItem : Entry.t) : Entry.t :=
  let processedItem :=
    find (fun item => String.eqb (Entry.phase item) (Entry.phase defaultItem))
      processedItems in
  let chosen :=
    match processedItem with
    | Some item => item
    | None => defaultItem
    end in
  Entry.make (Entry.phase chosen) (Entry.avgRange chosen)
    (Entry.maxRange chosen) (Entry.minRange chosen) (Entry.count chosen)
    (Some (toFixed2 periodMean)).

Definition mergedData (periodMean : float) (processedItems : list Entry.t)
    : list Entry.t :=
  map (merge periodMean processedItems) defaultData.

Definition sortedData (merged : list Entry.t) : list Entry.t :=
  Lodash.sortBy (fun item => indexOf phaseOrder (Entry.phase item)) merged.

(** [processData], run on the state [st] with the loaded datasets and the
    selected period.  With an empty dataset it returns at once. *)
Definition processData (st : State) (data bitcoinData : list Row.t)
    (selectedPeriod : Z) : outcome State :=
  if (Nat.eqb (List.length data) 0 || Nat.eqb (List.length bitcoinData) 0)%bool
  then Normal st
  else
    let relevantMoon := relevantMoonData data selectedPeriod in
    let mean := periodMean data bitcoinData selectedPeriod in
    let average := Fixed.Number (Fixed.of_float mean) in
    items <- processed mean relevantMoon ;;
    Normal {| processedData := sortedData (mergedData mean items);
              periodAverage := average |}.

(** ** Calendar dates for the scenarios *)

(** Days from 1970-01-01 to the civil date [y]-[m]-[d] (proleptic
    Gregorian calendar). *)
Definition days_from_civil (y m d : Z) : Z :=
  let y' := if m <=? 2 then y - 1 else y in
  let era := y' / 400 in
  let yoe := y' - era * 400 in
  let doy := (153 * (if 2 <? m then m - 3 else m + 9) + 2) / 5 + d - 1 in
  let doe := yoe * 365 + yoe / 4 - yoe / 100 + doy in
  era * 146097 + doe - 719468.

(** The time value of [new Date("yyyy-mm-dd")]: midnight UTC of that day. *)
Definition isoDate (y m d : Z) : JS.Time :=
  Some (days_from_civil y m d * 86400000).

(** ** Concrete datasets *)

(** The scenario of the specification: one lunar cycle of moon rows, and
    price rows with the same dates and values (a price row has no [phase]
    column; the property key of [undefined] stands for it). *)
Definition scenarioMoon : list Row.t :=
  [ Row.make (isoDate 2024 1 1) "New Moon" (JS.Num 2.0);
    Row.make (isoDate 2024 1 8) "First Quarter" (JS.Num 3.0);
    Row.make (isoDate 2024 1 15) "Full Moon" (JS.Num 1.0);
    Row.make (isoDate 2024 1 23) "Last Quarter" (JS.Num 4.0);
    Row.make (isoDate 2024 1 31) "New Moon" (JS.Num 2.5) ].

Definition scenarioPrice : list Row.t :=
  map (fun row => Row.make (Row.date row) "undefined" (Row.price_range_percent row))
    scenarioMoon.

(** Two days of one New Moon span; the second day's [price_range_percent]
    field is empty in both files, which [dynamicTyping] parses to [null]. *)
Definition emptyFieldMoon : list Row.t :=
  [ Row.make (isoDate 2024 1 11) "New Moon" (JS.Num 2.0);
    Row.make (isoDate 2024 1 12) "New Moon" JS.Null ].

Definition emptyFieldPrice : list Row.t :=
  [ Row.make (isoDate 2024 1 11) "undefined" (JS.Num 2.0);
    Row.make (isoDate 2024 1 12) "undefined" JS.Null ].

(** Datasets without any New Moon row. *)
Definition moonlessMoon : list Row.t :=
  [ Row.make (isoDate 2024 1 15) "Full Moon" (JS.Num 1.0);
    Row.make (isoDate 2024 1 23) "Last Quarter" (JS.Num 4.0) ].

Definition moonlessPrice : list Row.t :=
  [ Row.make (isoDate 2024 1 15) "undefined" (JS.Num 1.0);
    Row.make (isoDate 2024 1 23) "undefined" (JS.Num 4.0) ].

(** The period mean as the specification words it: the mean over the
    window's price rows of the values that are present and are numbers. *)
Definition periodMean_spec (relevantBitcoin : list Row.t) : float :=
  Lodash.mean (map JS.Num (validRanges relevantBitcoin)).

(** Two New Moon rows supplied latest first. *)
Definition latestFirstMoon : list Row.t :=
  [ Row.make (isoDate 2024 1 31) "New Moon" (JS.Num 2.5);
    Row.make (isoDate 2024 1 1) "New Moon" (JS.Num 2.0) ].

#[local] Set Warnings "-inexact-float".

(** Two New Moon days whose values add up beyond the largest binary64
    number. *)
Definition overflowMoon : list Row.t :=
  [ Row.make (isoDate 2024 1 11) "New Moon" (JS.Num 1e308);
    Row.make (isoDate 2024 1 12) "New Moon" (JS.Num 1e308) ].

Definition overflowPrice : list Row.t :=
  [ Row.make (isoDate 2024 1 11) "undefined" (JS.Num 1.5);
    Row.make (isoDate 2024 1 12) "undefined" (JS.Num 2.5) ].

(** ** The window start as the specification words it *)

Fixpoint validTimes (times : list JS.Time) : list Z :=
  match times with
  | [] => []
  | Some t :: rest => t :: validTimes rest
  | None :: rest => validTimes rest
  end.

Definition lastn {A} (n : nat) (l : list A) : list A :=
  skipn (List.length l - n) l.

Definition earliest (times : list Z) : JS.Time :=
  match times with
  | [] => None
  | t :: rest => Some (fold_left Z.min rest t)
  end.

(** The New Moon dates in ascending order are the cycle boundaries; of the
    last [periodCycles + 1] boundaries the earliest is the window start. *)
Definition windowStart_spec (data : list Row.t) (periodCycles : Z) : JS.Time :=
  let boundaries := Lodash.sortBy (fun t => t) (validTimes (newMoons data)) in
  earliest (lastn (Z.to_nat (periodCycles + 1)) boundaries).

(** Rows in ascending date order: each date is valid and not after the
    next one. *)
Definition notAfter (a b : JS.Time) : Prop :=
  match a, b with
  | Some x, Some y => x <= y
  | _, _ => False
  end.

Definition ascending (rows : list Row.t) : Prop :=
  Sorted (fun a b => notAfter (Row.date a) (Row.date b)) rows.

(** ** What one run computes, phase by phase *)

(** The rows of the window recorded under one phase. *)
Definition rowsOfPhase (phase : string) (rows : list Row.t) : list Row.t :=
  filter (fun row => String.eqb (Row.phase row) phase) rows.

Definition avgText (valid : list float) : string :=
  match valid with
  | [] => "0.00"
  | _ => toFixed2 (Lodash.mean (map JS.Num valid))
  end.

Definition extremumText (extremum : option float) : string :=
  match extremum with
  | Some x => toFixed2 x
  | None => "0.00"
  end.

(** The entry [summarize] returns for a group. *)
Definition summary (periodMean : float) (group : string * list Row.t)
    : Entry.t :=
  let valid := validRanges (snd group) in
  Entry.make (fst group) (avgText valid) (extremumText (Lodash.max valid))
    (extremumText (Lodash.min valid)) (List.length valid)
    (Some (toFixed2 periodMean)).

(** The entry of the output table for one canonical phase. *)
Definition phaseSummary (periodMean : float) (relevantMoon : list Row.t)
    (phase : string) : Entry.t :=
  summary periodMean (phase, rowsOfPhase phase relevantMoon).

(** The state a run on two non-empty datasets publishes. *)
Definition published (data bitcoinData : list Row.t) (selectedPeriod : Z)
    : State :=
  let mean := periodMean data bitcoinData selectedPeriod in
  {| processedData :=
       map (phaseSummary mean (relevantMoonData data selectedPeriod)) phaseOrder;
     periodAverage := Fixed.Number (Fixed.of_float mean) |}.

(** ** The exact value of a binary64 number *)

(** A finite number [m * 2^e] has [-1074 <= e]; its value times [2^1074]
    is an integer. *)
Definition exactSF (X : spec_float) : extended :=
  match X with
  | S754_zero _ => Finite 0
  | S754_nan => Finite 0
  | S754_infinity s => if s then MinusInfinity else PlusInfinity
  | S754_finite s m e => Finite (signed s (Z.pos m * 2 ^ (e + 1074)))
  end.

Definition exact (x : float) : extended := exactSF (Prim2SF x).

Definition not_nan (x : float) : Prop := PrimFloat.is_nan x = false.

(** Hundredths, rounded half up, of [a / 2^1074]. *)
Definition half_up (a : Z) : Z := (200 * a + 2 ^ 1074) / 2 ^ 1075.

Definition roundZ (v : Z) : Z := Z.sgn v * half_up (Z.abs v).

Definition round_extended (a : extended) : extended :=
  match a with
  | Finite v => Finite (roundZ v)
  | _ => a
  end.

(** ** Groups by key *)

Definition keyed {A} (k : string) (g : string * list A) : bool :=
  String.eqb (fst g) k.

Definition under {A} (key : A -> string) (k : string) (l : list A) : list A :=
  filter (fun x => String.eqb (key x) k) l.

(** [acc] holds, for each key, the items of [done] under it. *)
Definition grouped {A} (key : A -> string) (acc : list (string * list A))
    (done : list A) : Prop :=
  forall k, find (keyed k) acc =
            match under key k done with
            | [] => None
            | items => Some (k, items)
            end.

(** ** Rows the table counts *)

(** A row whose phase is one of the four of [phaseOrder]. *)
Definition canonical (row : Row.t) : bool :=
  existsb (String.eqb (Row.phase row)) phaseOrder.

(** A row whose [price_range_percent] parses to a number. *)
Definition numeric (row : Row.t) : bool :=
  negb (PrimFloat.is_nan (JS.parseFloat (Row.price_range_percent row))).

(** The statistics of an entry: all its fields but [periodAvg]. *)
Definition stats (e : Entry.t) : string * string * string * string * nat :=
  (Entry.phase e, Entry.avgRange e, Entry.maxRange e, Entry.minRange e,
   Entry.count e).

(** The samples of a table: the sum of its counts. *)
Definition samples (table : list Entry.t) : nat :=
  fold_right (fun e n => (Entry.count e + n)%nat) 0%nat table.

(** What a run publishes when its window is empty. *)
Definition blank : State :=
  {| processedData :=
       map (fun phase => Entry.make phase "0.00" "0.00" "0.00" 0
                           (Some "NaN"%string))
         phaseOrder;
     periodAverage := nan |}.

(** A moon file whose only New Moon row has a date that does not parse. *)
Definition undatedMoon : list Row.t :=
  [ Row.make None "New Moon" (JS.Num 2.0);
    Row.make (isoDate 2024 1 8) "First Quarter" (JS.Num 3.0) ].

(** The scenario with a row of an unknown phase and a row without value. *)
Definition noisyMoon : list Row.t :=
  scenarioMoon ++
  [ Row.make (isoDate 2024 2 3) "Waxing Gibbous" (JS.Num 9.0);
    Row.make (isoDate 2024 2 7) "First Quarter" JS.Null ].

Definition indicator (b : bool) : nat := if b then 1%nat else 0%nat.

(** ** The period average of a window of numbers *)

(** A price value that is a number, or absent. *)
Definition numberOrAbsent (v : JS.value) : Prop :=
  match v with
  | JS.Num _ | JS.Undefined => True
  | _ => False
  end.

(** The numbers among the values, NaN left out. *)
Fixpoint numbersOf (values : list JS.value) : list float :=
  match values with
  | [] => []
  | JS.Num x :: rest =>
      if PrimFloat.is_nan x then numbersOf rest else x :: numbersOf rest
  | _ :: rest => numbersOf rest
  end.

(** The binary64 mean of numbers: they are added in their order, the sum
    is divided by their count; NaN when there is none. *)
Definition binaryMean (numbers : list float) : float :=
  match numbers with
  | [] => nan
  | x :: rest =>
      (fold_left PrimFloat.add rest x / JS.length_number numbers)%float
  end.

(** ** [parseInt] and the text of an integer *)

(** [String(n)] for an integer below 1e21 in magnitude. *)
Definition integerText (n : Z) : string :=
  if n <? 0 then ("-" ++ Fixed.digits (- n))%string else Fixed.digits n.

Definition code (c : ascii) : Z := Z.of_nat (nat_of_ascii c).

(** White space and line terminators, as the bytes of their UTF-8 form:
    TAB, LF, VT, FF, CR, SP; U+00A0; U+1680, U+2000 to U+200A, U+2028,
    U+2029, U+202F, U+205F, U+3000, U+FEFF. *)
Definition space1 (a : ascii) : bool :=
  ((9 <=? code a) && (code a <=? 13)) || (code a =? 32).

Definition space2 (a b : ascii) : bool :=
  (code a =? 194) && (code b =? 160).

Definition space3 (a b c : ascii) : bool :=
  ((code a =? 225) && (code b =? 154) && (code c =? 128))
  || ((code a =? 226) && (code b =? 128)
      && (((128 <=? code c) && (code c <=? 138))
          || (code c =? 168) || (code c =? 169) || (code c =? 175)))
  || ((code a =? 226) && (code b =? 129) && (code c =? 159))
  || ((code a =? 227) && (code b =? 128) && (code c =? 128))
  || ((code a =? 239) && (code b =? 187) && (code c =? 191)).

Fixpoint trimStart (s : string) : string :=
  match s with
  | EmptyString => s
  | String a rest =>
      if space1 a then trimStart rest
      else
        match rest with
        | EmptyString => s
        | String b rest2 =>
            if space2 a b then trimStart rest2
            else
              match rest2 with
              | EmptyString => s
              | String c rest3 =>
                  if space3 a b c then trimStart rest3 else s
              end
        end
  end.

Definition decimalDigit (c : ascii) : option Z :=
  if (48 <=? code c) && (code c <=? 57) then Some (code c - 48) else None.

Definition hexDigit (c : ascii) : option Z :=
  if (48 <=? code c) && (code c <=? 57) then Some (code c - 48)
  else if (97 <=? code c) && (code c <=? 102) then Some (code c - 87)
  else if (65 <=? code c) && (code c <=? 70) then Some (code c - 55)
  else None.

(** The value of the longest run of digits at the start of [s]; [acc] is
    [None] until a digit has been read. *)
Fixpoint readDigits (digit : ascii -> option Z) (radix : Z) (acc : option Z)
    (s : string) : option Z :=
  match s with
  | EmptyString => acc
  | String c rest =>
      match digit c with
      | Some d =>
          readDigits digit radix
            (Some (match acc with Some a => a * radix + d | None => d end)) rest
      | None => acc
      end
  end.

(** A leading sign: whether it is [-], and the text after it. *)
Definition splitSign (s : string) : bool * string :=
  match s with
  | String "-" rest => (true, rest)
  | String "+" rest => (false, rest)
  | _ => (false, s)
  end.

(** A leading [0x] or [0X]: whether there is one, and the text after it. *)
Definition splitRadix (s : string) : bool * string :=
  match s with
  | String "0" (String "x" rest) => (true, rest)
  | String "0" (String "X" rest) => (true, rest)
  | _ => (false, s)
  end.

(** [parseInt(text)] without a radix: the integer it denotes, [None] for
    NaN.  (JavaScript rounds the integer to binary64; [processData] uses
    the period only in [slice], which cannot tell the two apart.) *)
Definition parseInt (text : string) : option Z :=
  let '(neg, s) := splitSign (trimStart text) in
  let '(hex, s) := splitRadix s in
  match readDigits (if hex then hexDigit else decimalDigit)
          (if hex then 16 else 10) None s with
  | Some n => Some (if neg then - n else n)
  | None => None
  end.

(** ** The component: its state, its effects and its handlers *)

(** The state of [MoonBitcoinAnalysis].  [view] holds [processedData] and
    [periodAverage]; [selectedPeriod] is [None] when it is NaN; [console]
    lists the messages written with [console.error]. *)
Module Component.
Record t : Type := make {
  data : list Row.t;
  bitcoinData : list Row.t;
  view : State;
  selectedPeriod : option Z;
  loading : bool;
  console : list string
}.
End Component.

(** The values of the [useState] calls. *)
Definition mounted : Component.t :=
  Component.make [] [] initialState (Some 12) true [].

(** The period as [processData] reads it: it enters only
    [slice(-selectedPeriod - 1)], and [slice(NaN)] is [slice(0)], which is
    the slice of the period -1. *)
Definition periodOf (selectedPeriod : option Z) : Z :=
  match selectedPeriod with
  | Some p => p
  | None => -1
  end.

(** The effect on [data, bitcoinData, selectedPeriod]: it runs
    [processData]. *)
Definition effect (c : Component.t) : outcome Component.t :=
  st <- processData (Component.view c) (Component.data c)
          (Component.bitcoinData c) (periodOf (Component.selectedPeriod c)) ;;
  Normal (Component.make (Component.data c) (Component.bitcoinData c) st
            (Component.selectedPeriod c) (Component.loading c)
            (Component.console c)).

(** [onChange] of the selector: [setSelectedPeriod(parseInt(e.target.value))]. *)
Definition onChange (value : string) (c : Component.t) : Component.t :=
  Component.make (Component.data c) (Component.bitcoinData c)
    (Component.view c) (parseInt value) (Component.loading c)
    (Component.console c).

(** What is on the screen: the loading notice, or the selector with the
    values of its options and the chart with its points. *)
Inductive screen : Type :=
| LoadingScreen
| ChartScreen (options : list string) (selected : option Z)
    (points : list Entry.t).

Definition render (c : Component.t) : screen :=
  if Component.loading c then LoadingScreen
  else ChartScreen (map integerText periods) (Component.selectedPeriod c)
         (processedData (Component.view c)).

Section Loading.

(** [text => Papa.parse(text, {header, dynamicTyping, skipEmptyLines}).data] *)
Variable parse : string -> list Row.t.

(** [fetchData], once both reads have settled: [Some text] when
    [window.fs.readFile] resolved, [None] when it rejected.  A rejection
    skips to the [catch]. *)
Definition fetchData (moonResponse bitcoinResponse : option string)
    (c : Component.t) : Component.t :=
  match moonResponse, bitcoinResponse with
  | Some moonText, Some bitcoinText =>
      Component.make (parse moonText) (parse bitcoinText) (Component.view c)
        (Component.selectedPeriod c) false (Component.console c)
  | _, _ =>
      Component.make (Component.data c) (Component.bitcoinData c)
        (Component.view c) (Component.selectedPeriod c) false
        (Component.console c ++ ["Error reading files:"%string])
  end.

(** One step of the component's life from a state at rest to the next:
    the reads settle while the loading notice is shown, or the user picks
    an option of the selector on the screen, and the effect of the render
    this triggers has run.  The renders in between are those of [live]
    below. *)
Inductive step : Component.t -> Component.t -> Prop :=
| step_fetched c moonResponse bitcoinResponse c' :
    render c = LoadingScreen ->
    effect (fetchData moonResponse bitcoinResponse c) = Normal c' ->
    step c c'
| step_changed c options selected points value c' :
    render c = ChartScreen options selected points ->
    In value options ->
    effect (onChange value c) = Normal c' ->
    step c c'.

Inductive reachable : Component.t -> Prop :=
| reachable_mounted : reachable mounted
| reachable_step c c' : reachable c -> step c c' -> reachable c'.

End Loading.

(** ** Renders and effects, one at a time *)

(** A call of a setter by [fetchData]. *)
Inductive update : Type :=
| SetData (rows : list Row.t)
| SetBitcoinData (rows : list Row.t)
| SetLoading (loading : bool).

Definition applyUpdate (c : Component.t) (u : update) : Component.t :=
  match u with
  | SetData rows =>
      Component.make rows (Component.bitcoinData c) (Component.view c)
        (Component.selectedPeriod c) (Component.loading c)
        (Component.console c)
  | SetBitcoinData rows =>
      Component.make (Component.data c) rows (Component.view c)
        (Component.selectedPeriod c) (Component.loading c)
        (Component.console c)
  | SetLoading loading =>
      Component.make (Component.data c) (Component.bitcoinData c)
        (Component.view c) (Component.selectedPeriod c) loading
        (Component.console c)
  end.

(** Whether the setter writes one of [data, bitcoinData, selectedPeriod],
    the dependencies of the effect that runs [processData]. *)
Definition writesDependency (u : update) : bool :=
  match u with
  | SetLoading _ => false
  | _ => true
  end.

(** The component between two renders: the state of the last render,
    whether the [processData] effect of that render is still to run, and
    the setter calls of [fetchData] that no render has taken up yet. *)
Module Live.
Record t : Type := make {
  cells : Component.t;
  pending : bool;
  queue : list update
}.
End Live.

(** After the first render both effects are to run; the first one only
    starts [fetchData]. *)
Definition firstRender : Live.t := Live.make mounted true [].

Section Rendering.

Variable parse : string -> list Row.t.

(** The setters [fetchData] calls once both reads have settled: the three
    of the [try] block, or the one of the [catch]. *)
Definition setterCalls (moonResponse bitcoinResponse : option string)
    : list update :=
  match moonResponse, bitcoinResponse with
  | Some moonText, Some bitcoinText =>
      [SetData (parse moonText); SetBitcoinData (parse bitcoinText);
       SetLoading false]
  | _, _ => [SetLoading false]
  end.

(** The [console.error] of the [catch]. *)
Definition logged (moonResponse bitcoinResponse : option string)
    (c : Component.t) : Component.t :=
  match moonResponse, bitcoinResponse with
  | Some _, Some _ => c
  | _, _ =>
      Component.make (Component.data c) (Component.bitcoinData c)
        (Component.view c) (Component.selectedPeriod c) (Component.loading c)
        (Component.console c ++ ["Error reading files:"%string])
  end.

(** What happens between two renders.  React runs the effects of a render
    before it starts the next render, so a setter call is taken up only
    when no effect is pending.
    - [live_effect]: the effect of the last render runs [processData];
      its two setters give the next render, which changes no dependency.
    - [live_settled]: the reads settle and [fetchData] calls its setters.
    - [live_rendered]: a render takes up setter calls of [fetchData], all
      of them when React batches them, the next one when it does not; the
      effect is to run again when a dependency was written.
    - [live_changed]: the user picks an option; the render has the new
      [selectedPeriod] and the table of before, and the effect is to run
      (also when the option is the one that was selected: the effect then
      publishes the same table again). *)
Inductive live : Live.t -> Live.t -> Prop :=
| live_effect s c' :
    Live.pending s = true ->
    effect (Live.cells s) = Normal c' ->
    live s (Live.make c' false (Live.queue s))
| live_settled s moonResponse bitcoinResponse :
    Live.pending s = false ->
    Live.queue s = [] ->
    Component.loading (Live.cells s) = true ->
    live s (Live.make (logged moonResponse bitcoinResponse (Live.cells s))
              false (setterCalls moonResponse bitcoinResponse))
| live_rendered s now later :
    Live.pending s = false ->
    Live.queue s = now ++ later ->
    now <> [] ->
    live s (Live.make (fold_left applyUpdate now (Live.cells s))
              (existsb writesDependency now) later)
| live_changed s options selected points value :
    Live.pending s = false ->
    Live.queue s = [] ->
    render (Live.cells s) = ChartScreen options selected points ->
    In value options ->
    live s (Live.make (onChange value (Live.cells s)) true []).

Inductive reaches : Live.t -> Prop :=
| reaches_first : reaches firstRender
| reaches_live s s' : reaches s -> live s s' -> reaches s'.

End Rendering.

(** A parser for the two texts "moon" and "price". *)
Definition parseScenario (text : string) : list Row.t :=
  if String.eqb text "moon" then scenarioMoon else scenarioPrice.

(** The view that belongs to the datasets and the period of a state:
    nothing while a dataset is empty, else what [processData] publishes. *)
Definition expectedView (c : Component.t) : State :=
  match Component.data c, Component.bitcoinData c with
  | _ :: _, _ :: _ =>
      published (Component.data c) (Component.bitcoinData c)
        (periodOf (Component.selectedPeriod c))
  | _, _ => initialState
  end.

(** The view the effect leaves: the one it found while a dataset is empty,
    else what [processData] publishes. *)
Definition nextView (c : Component.t) : State :=
  match Component.data c, Component.bitcoinData c with
  | _ :: _, _ :: _ =>
      published (Component.data c) (Component.bitcoinData c)
        (periodOf (Component.selectedPeriod c))
  | _, _ => Component.view c
  end.

(** What holds of every state the component reaches. *)
Definition settled (parse : string -> list Row.t) (c : Component.t) : Prop :=
  (exists p, Component.selectedPeriod c = Some p /\ In p periods) /\
  Component.view c = expectedView c /\
  (Component.loading c = true -> c = mounted) /\
  (Component.loading c = false ->
   (Component.console c = [] /\
    exists moonText bitcoinText,
      Component.data c = parse moonText /\
      Component.bitcoinData c = parse bitcoinText)
   \/
   (Component.console c = ["Error reading files:"%string] /\
    Component.data c = [] /\ Component.bitcoinData c = [])).

(** The state once both files are read with [parseScenario]. *)
Definition loadedScenario : Component.t :=
  Component.make scenarioMoon scenarioPrice
    (published scenarioMoon scenarioPrice 12) (Some 12) false [].


(** The table and the period average of a state are those of its datasets
    and of the period [p]: the ones of the start while a dataset is empty,
    else what [processData] publishes. *)
Definition upToDate (c : Component.t) (p : Z) : Prop :=
  (Component.data c = [] \/ Component.bitcoinData c = [] ->
   Component.view c = initialState) /\
  (Component.data c <> [] -> Component.bitcoinData c <> [] ->
   processData initialState (Component.data c) (Component.bitcoinData c) p =
   Normal (Component.view c)).

(** The setter calls not yet rendered are the last calls of [fetchData],
    and a dataset still to be set is empty. *)
Definition queued (s : Live.t) : Prop :=
  match Live.queue s with
  | [] =>
      Component.loading (Live.cells s) = true ->
      Component.data (Live.cells s) = [] /\
      Component.bitcoinData (Live.cells s) = []
  | [SetLoading false] => True
  | [SetBitcoinData _; SetLoading false] =>
      Component.bitcoinData (Live.cells s) = []
  | [SetData _; SetBitcoinData _; SetLoading false] =>
      Component.bitcoinData (Live.cells s) = []
  | _ => False
  end.

(** What holds between any two renders. *)
Definition steady (s : Live.t) : Prop :=
  (exists p, Component.selectedPeriod (Live.cells s) = Some p /\
             In p periods) /\
  (Component.data (Live.cells s) = [] \/
   Component.bitcoinData (Live.cells s) = [] ->
   Component.view (Live.cells s) = initialState) /\
  (Live.pending s = false ->
   Component.view (Live.cells s) = expectedView (Live.cells s)) /\
  queued s.

(** The scenario on the screen right after the user has picked "3": the
    period is 3, the table still the one of 12 cycles. *)
Definition staleThreeCycles : Live.t :=
  Live.make (onChange "3" loadedScenario) true [].

(** ** The tooltip *)

(** [x.toFixed(1)], laid out like [toFixed2]. *)
Definition tenths (m : positive) (e : Z) : Z :=
  if 0 <=? e then Z.pos m * 2 ^ e * 10
  else (Z.pos m * 20 + 2 ^ (- e)) / 2 ^ (1 - e).

Definition toFixed1 (x : float) : string :=
  match Prim2SF x with
  | S754_nan => "NaN"
  | S754_infinity s => if s then "-Infinity" else "Infinity"
  | S754_zero _ => "0.0"
  | S754_finite s m e =>
      ((if s then "-" else "") ++
       (if (1e21 <=? abs x)%float then Fixed.exponential m e
        else Fixed.digits (tenths m e / 10) ++ "." ++
             Fixed.digits (tenths m e mod 10)))%string
  end.

(** The run of decimal digits at the start of [s]: its value after [acc],
    the number of its digits after [count], and the rest of [s]. *)
Fixpoint digitRun (acc : Z) (count : nat) (s : string) : Z * nat * string :=
  match s with
  | EmptyString => (acc, count, s)
  | String c rest =>
      match decimalDigit c with
      | Some d => digitRun (acc * 10 + d) (S count) rest
      | None => (acc, count, s)
      end
  end.

(** The exponent part at the start of [s], 0 when there is none: an [e] or
    [E], a sign or not, and at least one digit. *)
Definition exponentPart (s : string) : Z :=
  match s with
  | String c rest =>
      if (code c =? 101) || (code c =? 69) then
        let '(neg, digits) := splitSign rest in
        let '(value, count, _) := digitRun 0 0 digits in
        match count with
        | O => 0
        | _ => if neg then - value else value
        end
      else 0
  | EmptyString => 0
  end.

Definition startsWith (prefix s : string) : bool :=
  String.eqb (substring 0 (String.length prefix) s) prefix.

(** The fraction at the start of [s], read after the digits [whole]: a
    point and the digits after it. *)
Definition fractionOf (whole : Z) (s : string) : Z * nat * string :=
  match s with
  | String "." rest => digitRun whole 0 rest
  | _ => (whole, O, s)
  end.

(** The number of an unsigned decimal literal at the start of [s]:
    [Infinity], or digits with or without a fraction and an exponent; NaN
    when [s] does not start with one. *)
Definition magnitudeOf (s : string) : float :=
  if startsWith "Infinity" s then infinity
  else
    let '(whole, wholeCount, afterWhole) := digitRun 0 0 s in
    let '(mantissa, fractionCount, afterMantissa) :=
      fractionOf whole afterWhole in
    match (wholeCount + fractionCount)%nat with
    | O => nan
    | _ =>
        let power := exponentPart afterMantissa - Z.of_nat fractionCount in
        if 0 <=? power then Fixed.nearest (mantissa * 10 ^ power) 1
        else Fixed.nearest mantissa (10 ^ (- power))
    end.

(** [parseFloat(text)] on a text: the longest decimal literal after the
    leading white space, as the nearest binary64 number; NaN when there is
    none. *)
Definition parseFloatText (text : string) : float :=
  let '(neg, s) := splitSign (trimStart text) in
  if neg then (- magnitudeOf s)%float else magnitudeOf s.

(** What the tooltip shows for a point of the chart. *)
Module Tip.
Record t : Type := make {
  phase : string;
  average : string;
  periodAvg : option string;
  green : bool;
  diff : string;
  diffPercent : string;
  max : string;
  min : string;
  samples : nat
}.
End Tip.

(** The [content] of the chart's [Tooltip]: the result [None] is [null].
    [payload] lists the data points of the hovered position, one for each
    line; it is [None] when the chart passes none. *)
Definition tooltip (periodAverage : float) (active : bool)
    (payload : option (list Entry.t)) : option Tip.t :=
  match active, payload with
  | true, Some (data :: _) =>
      let diff :=
        toFixed2 (parseFloatText (Entry.avgRange data) - periodAverage)%float in
      let diffPercent :=
        toFixed1
          ((parseFloatText (Entry.avgRange data) / periodAverage - 1) * 100)%float in
      Some (Tip.make (Entry.phase data) (Entry.avgRange data)
              (Entry.periodAvg data) (0 <? parseFloatText diff)%float
              diff diffPercent (Entry.maxRange data) (Entry.minRange data)
              (Entry.count data))
  | _, _ => None
  end.

(** The value of a decimal numeral read after [acc], and its length. *)
Fixpoint uintValue (acc : Z) (d : Decimal.uint) : Z :=
  match d with
  | Decimal.Nil => acc
  | Decimal.D0 l => uintValue (acc * 10 + 0) l
  | Decimal.D1 l => uintValue (acc * 10 + 1) l
  | Decimal.D2 l => uintValue (acc * 10 + 2) l
  | Decimal.D3 l => uintValue (acc * 10 + 3) l
  | Decimal.D4 l => uintValue (acc * 10 + 4) l
  | Decimal.D5 l => uintValue (acc * 10 + 5) l
  | Decimal.D6 l => uintValue (acc * 10 + 6) l
  | Decimal.D7 l => uintValue (acc * 10 + 7) l
  | Decimal.D8 l => uintValue (acc * 10 + 8) l
  | Decimal.D9 l => uintValue (acc * 10 + 9) l
  end.

(** A text that does not go on with a decimal digit. *)
Definition noDigitAhead (s : string) : Prop :=
  match s with
  | EmptyString => True
  | String c _ => decimalDigit c = None
  end.

(** Whether [toFixed] prints [x] with an exponent: [x] is finite and at
    least 1e21 in magnitude. *)
Definition exponentForm (x : float) : bool :=
  match Fixed.of_float x with
  | Fixed.Shortest _ _ _ => true
  | _ => false
  end.

(** A printed value without exponent, its hundredths not negative. *)
Definition plain (f : Fixed.t) : Prop :=
  match f with
  | Fixed.Decimal _ n => 0 <= n
  | Fixed.Shortest _ _ _ => False
  | _ => True
  end.

(** The number whose [toFixed(2)] is the [avgRange] of an entry: the mean
    of the valid values, 0 when there is none. *)
Definition shownAverage (valid : list float) : float :=
  match valid with
  | [] => 0%float
  | _ => Lodash.mean (map JS.Num valid)
  end.

(** ** Lemmas on the library functions *)

Lemma mapM_total {A B} (f : A -> outcome B) (g : A -> B) (l : list A) :
  (forall a, In a l -> f a = Normal (g a)) -> mapM f l = Normal (map g l).
Proof.
  induction l as [| a rest IH]; intros Hf; simpl.
  - reflexivity.
  - rewrite (Hf a (or_introl eq_refl)). simpl.
    rewrite IH by (intros b Hb; apply Hf; now right).
    reflexivity.
Qed.

Lemma baseExtremum_from_started cmp c l :
  exists r, Lodash.baseExtremum_from cmp (Some c) l = Some r.
Proof.
  revert c. induction l as [| x rest IH]; intros c; simpl.
  - now exists c.
  - destruct (cmp x c); apply IH.
Qed.

Lemma baseExtremum_defined cmp x l :
  PrimFloat.is_nan x = false ->
  exists r, Lodash.baseExtremum_from cmp None (x :: l) = Some r.
Proof.
  intros Hx. simpl. rewrite Hx. simpl. apply baseExtremum_from_started.
Qed.

Lemma validRanges_not_nan entries :
  Forall (fun x => PrimFloat.is_nan x = false) (validRanges entries).
Proof.
  unfold validRanges. apply Forall_forall. intros x Hx.
  apply filter_In in Hx. destruct Hx as [_ Hx].
  now apply negb_true_iff in Hx.
Qed.

Section GroupBy.

Context {A : Type} (key : A -> string).

Lemma find_assign k k' (x : A) acc :
  find (keyed k) (Lodash.assign k' x acc) =
  if String.eqb k' k
  then Some (k, match find (keyed k) acc with
                | Some g => snd g ++ [x]
                | None => [x]
                end)
  else find (keyed k) acc.
Proof.
  induction acc as [| [k0 items] rest IH]; simpl.
  - unfold keyed; simpl. destruct (String.eqb k' k) eqn:E; [| reflexivity].
    apply String.eqb_eq in E. now subst.
  - destruct (String.eqb k0 k') eqn:E0; simpl; unfold keyed in *; simpl.
    + apply String.eqb_eq in E0. subst k0.
      destruct (String.eqb k' k) eqn:E; [| reflexivity].
      apply String.eqb_eq in E. now subst.
    + destruct (String.eqb k0 k) eqn:E1.
      * apply String.eqb_eq in E1. subst k0. now rewrite String.eqb_sym, E0.
      * apply IH.
Qed.

Lemma grouped_step acc done x :
  grouped key acc done ->
  grouped key (Lodash.assign (key x) x acc) (done ++ [x]).
Proof.
  intros H k. rewrite find_assign, (H k). unfold under.
  rewrite filter_app. simpl.
  destruct (String.eqb (key x) k).
  - destruct (filter _ done); reflexivity.
  - rewrite app_nil_r. reflexivity.
Qed.

Lemma grouped_fold l : forall acc done,
  grouped key acc done ->
  grouped key (fold_left (fun result item => Lodash.assign (key item) item result) l acc)
          (done ++ l).
Proof.
  induction l as [| x rest IH]; intros acc done H; simpl.
  - now rewrite app_nil_r.
  - replace (done ++ x :: rest) with ((done ++ [x]) ++ rest)
      by (now rewrite <- app_assoc).
    apply IH. now apply grouped_step.
Qed.

Lemma groupBy_find k l :
  find (keyed k) (Lodash.groupBy key l) =
  match under key k l with
  | [] => None
  | items => Some (k, items)
  end.
Proof.
  unfold Lodash.groupBy.
  apply (grouped_fold l [] []). intros k'. reflexivity.
Qed.

End GroupBy.

Lemma find_map {A B} (f : A -> B) (p : B -> bool) (l : list A) :
  find p (map f l) = option_map f (find (fun a => p (f a)) l).
Proof.
  induction l as [| a rest IH]; simpl; [reflexivity |].
  destruct (p (f a)); [reflexivity | apply IH].
Qed.

Lemma sortedData_canonical (l : list Entry.t) :
  map Entry.phase l = phaseOrder -> sortedData l = l.
Proof.
  destruct l as [| a [| b [| c [| d [| e rest]]]]]; try discriminate.
  intros H. injection H as Ha Hb Hc Hd.
  assert (Ka : indexOf phaseOrder (Entry.phase a) = 0) by now rewrite Ha.
  assert (Kb : indexOf phaseOrder (Entry.phase b) = 1) by now rewrite Hb.
  assert (Kc : indexOf phaseOrder (Entry.phase c) = 2) by now rewrite Hc.
  assert (Kd : indexOf phaseOrder (Entry.phase d) = 3) by now rewrite Hd.
  unfold sortedData, Lodash.sortBy.
  cbn [fold_right Lodash.insert]. rewrite Kc, Kd. cbv iota beta delta [Z.leb Z.compare Pos.compare Pos.compare_cont].
  cbn [Lodash.insert]. rewrite Kb, Kc. cbv iota beta delta [Z.leb Z.compare Pos.compare Pos.compare_cont].
  cbn [Lodash.insert]. rewrite Ka, Kb. reflexivity.
Qed.

(** ** [processData] is total, and what it publishes *)

Lemma summarize_summary m group : summarize m group = Normal (summary m group).
Proof.
  destruct group as [phase entries]. unfold summarize, summary. simpl.
  pose proof (validRanges_not_nan entries) as Hv.
  destruct (validRanges entries) as [| x rest] eqn:E.
  - reflexivity.
  - inversion Hv as [| ? ? Hx _]; subst.
    destruct (baseExtremum_defined Lodash.baseGt x rest Hx) as [hi Hhi].
    destruct (baseExtremum_defined Lodash.baseLt x rest Hx) as [lo Hlo].
    unfold Lodash.max, Lodash.min. rewrite Hhi, Hlo. reflexivity.
Qed.

Lemma processed_total m relevantMoon :
  processed m relevantMoon =
  Normal (map (summary m) (Lodash.groupBy Row.phase relevantMoon)).
Proof.
  unfold processed. apply mapM_total. intros g _. apply summarize_summary.
Qed.

Lemma merge_phaseSummary m relevantMoon phase :
  merge m (map (summary m) (Lodash.groupBy Row.phase relevantMoon))
        (Entry.make phase "0.00" "0.00" "0.00" 0 None) =
  phaseSummary m relevantMoon phase.
Proof.
  unfold merge. simpl.
  rewrite (find_map (summary m)
             (fun item => String.eqb (Entry.phase item) phase)).
  change (fun a => String.eqb (Entry.phase (summary m a)) phase)
    with (@keyed Row.t phase).
  rewrite groupBy_find. unfold phaseSummary, rowsOfPhase, under.
  destruct (filter _ relevantMoon) as [| r rest] eqn:E; reflexivity.
Qed.

Lemma mergedData_phaseSummary m relevantMoon :
  mergedData m (map (summary m) (Lodash.groupBy Row.phase relevantMoon)) =
  map (phaseSummary m relevantMoon) phaseOrder.
Proof.
  unfold mergedData, defaultData. rewrite map_map.
  apply map_ext. intros phase. apply merge_phaseSummary.
Qed.

Lemma nonempty_length {A} (l : list A) :
  l <> [] -> Nat.eqb (List.length l) 0 = false.
Proof. destruct l; [congruence | reflexivity]. Qed.

Lemma processData_published st data bitcoinData selectedPeriod :
  data <> [] -> bitcoinData <> [] ->
  processData st data bitcoinData selectedPeriod =
  Normal (published data bitcoinData selectedPeriod).
Proof.
  intros Hd Hb. unfold processData.
  rewrite (nonempty_length _ Hd), (nonempty_length _ Hb). cbn [orb].
  rewrite processed_total. cbn [bind].
  unfold periodMean. rewrite mergedData_phaseSummary.
  rewrite sortedData_canonical; [reflexivity |].
  rewrite map_map. apply map_id.
Qed.

(** Reduces a goal on the state some run leaves to the same goal on
    [published]. *)
Ltac publish :=
  match goal with
  | |- exists st', processData _ ?data ?bitcoinData ?p = Normal st' /\ _ =>
      exists (published data bitcoinData p);
      split; [now apply processData_published |]
  end.

(** No run of [processData] throws: [toFixed] is only ever called on a
    number. *)
Theorem processData_completes st data bitcoinData selectedPeriod :
  exists st', processData st data bitcoinData selectedPeriod = Normal st'.
Proof.
  destruct data as [| row rows].
  - exists st. reflexivity.
  - destruct bitcoinData as [| price prices].
    + exists st. reflexivity.
    + eexists. apply processData_published; discriminate.
Qed.

(** ** The output table *)

Lemma published_phases data bitcoinData selectedPeriod :
  map Entry.phase (processedData (published data bitcoinData selectedPeriod)) =
  phaseOrder.
Proof. reflexivity. Qed.

Lemma published_entry data bitcoinData selectedPeriod e :
  In e (processedData (published data bitcoinData selectedPeriod)) ->
  exists phase,
    In phase phaseOrder /\
    e = phaseSummary (periodMean data bitcoinData selectedPeriod)
          (relevantMoonData data selectedPeriod) phase.
Proof.
  unfold published. cbn [processedData]. intros H.
  apply in_map_iff in H. destruct H as [phase [He Hp]].
  exists phase. now split.
Qed.

(** C1.  On two non-empty datasets and for every selected period, the run
    completes and publishes a table of exactly four entries whose phases
    are, in this order, New Moon, First Quarter, Full Moon, Last Quarter:
    no other phase of the input gets an entry. *)
Theorem processData_four_phases st data bitcoinData selectedPeriod :
  data <> [] -> bitcoinData <> [] ->
  exists st',
    processData st data bitcoinData selectedPeriod = Normal st' /\
    List.length (processedData st') = 4%nat /\
    map Entry.phase (processedData st') =
      ["New Moon"; "First Quarter"; "Full Moon"; "Last Quarter"]%string.
Proof.
  intros Hd Hb. publish.
  split; reflexivity.
Qed.

Lemma processData_four_phases_witness :
  exists st',
    processData initialState scenarioMoon scenarioPrice 1 = Normal st' /\
    List.length (processedData st') = 4%nat /\
    map Entry.phase (processedData st') =
      ["New Moon"; "First Quarter"; "Full Moon"; "Last Quarter"]%string.
Proof.
  apply (processData_four_phases initialState scenarioMoon scenarioPrice 1);
    discriminate.
Defined.

(** C2 (the code departs from it).  The four entries of a run do carry
    one [periodAvg] and [periodAverage] is the number it denotes, but it is
    not the mean of the valid values of the window as soon as a field is
    empty.  On [emptyFieldMoon], [emptyFieldPrice] the window is the two
    price rows and its one valid value is 2, whose mean prints as "2.00";
    every entry carries "1.00" and [periodAverage] is 1, the empty field
    counted as a 0. *)
Theorem periodAvg_counts_empty_field :
  exists st',
    processData initialState emptyFieldMoon emptyFieldPrice 1 = Normal st' /\
    map Entry.periodAvg (processedData st') =
      [Some "1.00"; Some "1.00"; Some "1.00"; Some "1.00"]%string /\
    periodAverage st' = 1%float /\
    relevantBitcoinData emptyFieldMoon emptyFieldPrice 1 = emptyFieldPrice /\
    validRanges emptyFieldPrice = [2%float] /\
    toFixed2 (binaryMean [2%float]) = "2.00"%string.
Proof. eexists. repeat apply conj; vm_compute; reflexivity. Qed.

(** C3 (the code departs from it).  An empty [price_range_percent] field is
    left out of its phase's statistics but not of the period average: it
    passes [!isNaN(range)] and [_.mean] adds it as 0.  On
    [emptyFieldMoon], [emptyFieldPrice] the New Moon entry has average 2.00
    over one sample, the mean of the valid price values is 2.00 as well, and
    the period average comes out as 1.00. *)
Theorem empty_field_in_period_average :
  processData initialState emptyFieldMoon emptyFieldPrice 1 =
  Normal
    {| processedData :=
         [ Entry.make "New Moon" "2.00" "2.00" "2.00" 1 (Some "1.00"%string);
           Entry.make "First Quarter" "0.00" "0.00" "0.00" 0 (Some "1.00"%string);
           Entry.make "Full Moon" "0.00" "0.00" "0.00" 0 (Some "1.00"%string);
           Entry.make "Last Quarter" "0.00" "0.00" "0.00" 0 (Some "1.00"%string) ];
       periodAverage := 1 |} /\
  relevantBitcoinData emptyFieldMoon emptyFieldPrice 1 = emptyFieldPrice /\
  toFixed2 (periodMean_spec emptyFieldPrice) = "2.00"%string.
Proof. repeat apply conj; vm_compute; reflexivity. Qed.

(** C6.  The scenario of the specification: with [periodCycles = 1] the
    window starts on 2024-01-01, keeps all five rows of both datasets, the
    period average is 2.50, and the per-phase averages are New Moon 2.25
    (count 2), First Quarter 3.00, Full Moon 1.00, Last Quarter 4.00 (count
    1 each). *)
Theorem scenario_one_cycle :
  startDate scenarioMoon 1 = isoDate 2024 1 1 /\
  relevantMoonData scenarioMoon 1 = scenarioMoon /\
  relevantBitcoinData scenarioMoon scenarioPrice 1 = scenarioPrice /\
  processData initialState scenarioMoon scenarioPrice 1 =
  Normal
    {| processedData :=
         [ Entry.make "New Moon" "2.25" "2.50" "2.00" 2 (Some "2.50"%string);
           Entry.make "First Quarter" "3.00" "3.00" "3.00" 1 (Some "2.50"%string);
           Entry.make "Full Moon" "1.00" "1.00" "1.00" 1 (Some "2.50"%string);
           Entry.make "Last Quarter" "4.00" "4.00" "4.00" 1 (Some "2.50"%string) ];
       periodAverage := 2.5 |}.
Proof. repeat apply conj; vm_compute; reflexivity. Qed.

(** C9.  An entry of the table with [count = 0] has "0.00" as its
    [avgRange], [maxRange] and [minRange]; and a canonical phase without a
    valid sample in the window is not dropped: the table holds its all-zero
    entry. *)
Theorem zero_count_entries st data bitcoinData selectedPeriod :
  data <> [] -> bitcoinData <> [] ->
  exists st',
    processData st data bitcoinData selectedPeriod = Normal st' /\
    (forall e, In e (processedData st') -> Entry.count e = 0%nat ->
       Entry.avgRange e = "0.00"%string /\
       Entry.maxRange e = "0.00"%string /\
       Entry.minRange e = "0.00"%string) /\
    (forall phase, In phase phaseOrder ->
       validRanges (rowsOfPhase phase (relevantMoonData data selectedPeriod)) = [] ->
       In (Entry.make phase "0.00" "0.00" "0.00" 0
             (Some (toFixed2 (periodMean data bitcoinData selectedPeriod))))
          (processedData st')).
Proof.
  intros Hd Hb. publish. split.
  - intros e He Hc. apply published_entry in He.
    destruct He as [phase [_ He]]. subst e.
    unfold phaseSummary, summary in *. cbn [Entry.count Entry.avgRange
      Entry.maxRange Entry.minRange fst snd] in *.
    apply length_zero_iff_nil in Hc. rewrite Hc. repeat split.
  - intros phase Hp Hv. unfold published. cbn [processedData].
    apply in_map_iff. exists phase. split; [| exact Hp].
    unfold phaseSummary, summary. cbn [fst snd]. rewrite Hv. reflexivity.
Qed.

Lemma zero_count_entries_witness :
  exists st',
    processData initialState moonlessMoon moonlessPrice 1 = Normal st' /\
    (forall e, In e (processedData st') -> Entry.count e = 0%nat ->
       Entry.avgRange e = "0.00"%string /\
       Entry.maxRange e = "0.00"%string /\
       Entry.minRange e = "0.00"%string) /\
    (forall phase, In phase phaseOrder ->
       validRanges (rowsOfPhase phase (relevantMoonData moonlessMoon 1)) = [] ->
       In (Entry.make phase "0.00" "0.00" "0.00" 0
             (Some (toFixed2 (periodMean moonlessMoon moonlessPrice 1))))
          (processedData st')).
Proof.
  apply (zero_count_entries initialState moonlessMoon moonlessPrice 1);
    discriminate.
Defined.

(** C10.  With an empty moon dataset or an empty price dataset the run
    returns at once: the state it was started on, table and period average,
    is the state it leaves. *)
Theorem empty_dataset_returns_early st data bitcoinData selectedPeriod :
  data = [] \/ bitcoinData = [] ->
  processData st data bitcoinData selectedPeriod = Normal st.
Proof.
  intros [H | H]; subst; unfold processData.
  - reflexivity.
  - cbn [List.length Nat.eqb]. now rewrite orb_true_r.
Qed.

Lemma empty_dataset_returns_early_witness :
  processData (published scenarioMoon scenarioPrice 1) scenarioMoon [] 3 =
  Normal (published scenarioMoon scenarioPrice 1).
Proof.
  apply (empty_dataset_returns_early
           (published scenarioMoon scenarioPrice 1) scenarioMoon [] 3).
  right. reflexivity.
Defined.

(** ** No New Moon row *)

Lemma newMoons_none data :
  (forall row, In row data -> Row.phase row <> "New Moon"%string) ->
  newMoons data = [].
Proof.
  intros H. unfold newMoons.
  replace (filter _ data) with (@nil Row.t); [reflexivity |].
  symmetry. induction data as [| row rest IH]; [reflexivity |]. simpl.
  destruct (String.eqb (Row.phase row) "New Moon") eqn:E.
  - apply String.eqb_eq in E. exfalso. apply (H row); [now left | exact E].
  - apply IH. intros r Hr. apply H. now right.
Qed.

Lemma slice_nil {A} start : JS.slice start (@nil A) = [].
Proof. unfold JS.slice. now rewrite skipn_nil. Qed.

Lemma ge_invalid a : JS.ge a None = false.
Proof. now destruct a. Qed.

Lemma relevantRows_invalid rows : relevantRows None rows = [].
Proof.
  unfold relevantRows. induction rows as [| row rest IH]; [reflexivity |].
  simpl. now rewrite ge_invalid.
Qed.

(** C4 (amended).  On non-empty datasets without a New Moon row the run
    completes without an exception and publishes the four canonical
    entries with "0.00" ranges and count 0; the period average is not
    zero but NaN, in the table (the text "NaN") and in [periodAverage]. *)
Theorem no_new_moon_all_zero st data bitcoinData selectedPeriod :
  data <> [] -> bitcoinData <> [] ->
  (forall row, In row data -> Row.phase row <> "New Moon"%string) ->
  processData st data bitcoinData selectedPeriod =
  Normal
    {| processedData :=
         [ Entry.make "New Moon" "0.00" "0.00" "0.00" 0 (Some "NaN"%string);
           Entry.make "First Quarter" "0.00" "0.00" "0.00" 0 (Some "NaN"%string);
           Entry.make "Full Moon" "0.00" "0.00" "0.00" 0 (Some "NaN"%string);
           Entry.make "Last Quarter" "0.00" "0.00" "0.00" 0 (Some "NaN"%string) ];
       periodAverage := nan |}.
Proof.
  intros Hd Hb Hnone. rewrite processData_published by assumption.
  unfold published, periodMean, relevantBitcoinData, relevantMoonData, startDate,
    relevantNewMoons.
  rewrite (newMoons_none data Hnone), slice_nil, !relevantRows_invalid.
  vm_compute. reflexivity.
Qed.

Lemma no_new_moon_all_zero_witness :
  processData initialState moonlessMoon moonlessPrice 12 =
  Normal
    {| processedData :=
         [ Entry.make "New Moon" "0.00" "0.00" "0.00" 0 (Some "NaN"%string);
           Entry.make "First Quarter" "0.00" "0.00" "0.00" 0 (Some "NaN"%string);
           Entry.make "Full Moon" "0.00" "0.00" "0.00" 0 (Some "NaN"%string);
           Entry.make "Last Quarter" "0.00" "0.00" "0.00" 0 (Some "NaN"%string) ];
       periodAverage := nan |}.
Proof.
  apply (no_new_moon_all_zero initialState moonlessMoon moonlessPrice 12);
    try discriminate.
  intros row [H | [H | []]]; subst row; discriminate.
Defined.

(** C4, as stated, fails: on [moonlessMoon], [moonlessPrice] the published
    period average is NaN, and so is the [periodAvg] text of each entry. *)
Lemma no_new_moon_average_is_nan :
  exists st',
    processData initialState moonlessMoon moonlessPrice 12 = Normal st' /\
    PrimFloat.is_nan (periodAverage st') = true /\
    map Entry.periodAvg (processedData st') =
      [Some "NaN"%string; Some "NaN"%string; Some "NaN"%string; Some "NaN"%string].
Proof.
  eexists. split; [vm_compute; reflexivity |]. split; vm_compute; reflexivity.
Qed.

(** ** Window selection *)

Lemma sortBy_sorted (times : list Z) :
  Sorted Z.le times -> Lodash.sortBy (fun t => t) times = times.
Proof.
  induction 1 as [| t rest Hs IH Hhd]; [reflexivity |].
  unfold Lodash.sortBy in *. cbn [fold_right]. rewrite IH.
  destruct Hhd as [| u rest' Hle]; [reflexivity |].
  cbn [Lodash.insert]. apply Z.leb_le in Hle. now rewrite Hle.
Qed.

Lemma earliest_sorted t rest :
  Forall (Z.le t) rest -> fold_left Z.min rest t = t.
Proof.
  induction 1 as [| u rest' Hle _ IH]; [reflexivity |].
  cbn [fold_left]. now rewrite Z.min_l.
Qed.

Lemma StronglySorted_skipn {A} (R : A -> A -> Prop) k l :
  StronglySorted R l -> StronglySorted R (skipn k l).
Proof.
  revert l. induction k as [| k IH]; intros l H; [exact H |].
  destruct l as [| x rest]; [exact H |].
  cbn [skipn]. apply IH. now inversion H.
Qed.

Lemma validTimes_Some times : validTimes (map Some times) = times.
Proof. induction times as [| t rest IH]; simpl; congruence. Qed.

Lemma slice_from_end {A} (n : Z) (l : list A) :
  0 <= n ->
  JS.slice (- n - 1) l = lastn (Z.to_nat (n + 1)) l.
Proof.
  intros Hn. unfold JS.slice, lastn.
  replace (- n - 1 <? 0) with true by (symmetry; apply Z.ltb_lt; lia).
  f_equal. lia.
Qed.

(** C5 (amended).  The code takes the New Moon rows in the order of the
    input and does not sort them.  When they are supplied in ascending date
    order, the start date used to filter both datasets is the earliest of
    the last [periodCycles + 1] New Moon dates. *)
Theorem startDate_of_sorted_input data (times : list Z) selectedPeriod :
  newMoons data = map Some times ->
  Sorted Z.le times ->
  0 <= selectedPeriod ->
  forall bitcoinData,
  startDate data selectedPeriod = windowStart_spec data selectedPeriod /\
  relevantMoonData data selectedPeriod =
    relevantRows (windowStart_spec data selectedPeriod) data /\
  relevantBitcoinData data bitcoinData selectedPeriod =
    relevantRows (windowStart_spec data selectedPeriod) bitcoinData.
Proof.
  intros Hnm Hs Hp bitcoinData.
  assert (E : startDate data selectedPeriod = windowStart_spec data selectedPeriod).
  { unfold startDate, windowStart_spec, relevantNewMoons.
    rewrite Hnm, validTimes_Some, (sortBy_sorted _ Hs).
    rewrite slice_from_end by exact Hp. unfold lastn.
    rewrite length_map, skipn_map.
    apply Sorted_StronglySorted in Hs; [| exact Z.le_trans].
    apply (StronglySorted_skipn _ (List.length times - Z.to_nat (selectedPeriod + 1)))
      in Hs.
    destruct (skipn _ times) as [| t rest]; [reflexivity |].
    cbn [map earliest]. inversion Hs; subst.
    now rewrite earliest_sorted. }
  unfold relevantMoonData, relevantBitcoinData. now rewrite E.
Qed.

Lemma startDate_of_sorted_input_witness :
  startDate scenarioMoon 1 = windowStart_spec scenarioMoon 1 /\
  relevantMoonData scenarioMoon 1 =
    relevantRows (windowStart_spec scenarioMoon 1) scenarioMoon /\
  relevantBitcoinData scenarioMoon scenarioPrice 1 =
    relevantRows (windowStart_spec scenarioMoon 1) scenarioPrice.
Proof.
  apply (startDate_of_sorted_input scenarioMoon
           [1704067200000; 1706659200000] 1).
  - reflexivity.
  - repeat constructor. vm_compute. discriminate.
  - lia.
Defined.

(** C5, as stated, fails on rows out of date order: on [latestFirstMoon]
    the code starts the window on 2024-01-31, the later of the two New
    Moons, and leaves the row of 2024-01-01 out. *)
Lemma startDate_unsorted_input :
  startDate latestFirstMoon 1 = isoDate 2024 1 31 /\
  windowStart_spec latestFirstMoon 1 = isoDate 2024 1 1 /\
  List.length (relevantMoonData latestFirstMoon 1) = 1%nat.
Proof. repeat apply conj; vm_compute; reflexivity. Qed.

(** ** The window grows with the period *)

Lemma notAfter_trans a b c : notAfter a b -> notAfter b c -> notAfter a c.
Proof. destruct a, b, c; simpl; try tauto. lia. Qed.

Lemma ge_earlier d a b :
  a = b \/ notAfter a b -> JS.ge d b = true -> JS.ge d a = true.
Proof.
  intros [-> | Hab]; [trivial |].
  destruct d as [x |], a as [y |], b as [z |]; simpl in *;
    try tauto; try discriminate.
  intros H. apply Z.leb_le in H. apply Z.leb_le. lia.
Qed.

Lemma newMoons_cons row rest :
  newMoons (row :: rest) =
  if String.eqb (Row.phase row) "New Moon"
  then Row.date row :: newMoons rest
  else newMoons rest.
Proof.
  unfold newMoons. cbn [filter].
  destruct (String.eqb (Row.phase row) "New Moon"); reflexivity.
Qed.

Lemma newMoons_after (t : JS.Time) rows :
  Forall (fun row => notAfter t (Row.date row)) rows ->
  Forall (notAfter t) (newMoons rows).
Proof.
  induction 1 as [| row rest Hrow _ IH]; [constructor |].
  rewrite newMoons_cons.
  destruct (String.eqb (Row.phase row) "New Moon"); [now constructor | exact IH].
Qed.

Lemma newMoons_sorted data :
  ascending data -> StronglySorted notAfter (newMoons data).
Proof.
  intros H. apply Sorted_StronglySorted in H.
  2: { intros a b c. apply notAfter_trans. }
  induction H as [| row rest Hs IH Hall]; [constructor |].
  rewrite newMoons_cons.
  destruct (String.eqb (Row.phase row) "New Moon"); [| exact IH].
  constructor; [exact IH | now apply newMoons_after].
Qed.

Lemma skipn_head_In {A} k (l : list A) b tb : skipn k l = b :: tb -> In b l.
Proof.
  intros H. rewrite <- (firstn_skipn k l), H.
  apply in_or_app. right. now left.
Qed.

(** Of two suffixes of a sorted list the longer one starts no later. *)
Lemma skipn_head_sorted {A} (R : A -> A -> Prop) l : forall k' k b tb,
  StronglySorted R l -> (k' <= k)%nat ->
  skipn k l = b :: tb ->
  exists a ta, skipn k' l = a :: ta /\ (a = b \/ R a b).
Proof.
  induction l as [| x rest IH]; intros k' k b tb Hs Hk Hb.
  - now rewrite skipn_nil in Hb.
  - inversion Hs as [| ? ? Hs' Hall]; subst.
    destruct k' as [| j'].
    + exists x, rest. split; [reflexivity |].
      destruct k as [| j].
      * left. cbn [skipn] in Hb. congruence.
      * right. cbn [skipn] in Hb.
        apply skipn_head_In in Hb.
        now apply (proj1 (Forall_forall _ _) Hall).
    + destruct k as [| j]; [lia |].
      cbn [skipn] in *. apply (IH j' j b tb); [exact Hs' | lia | exact Hb].
Qed.

Lemma startDate_earlier data p p' d :
  ascending data -> 0 <= p <= p' ->
  JS.ge d (startDate data p) = true -> JS.ge d (startDate data p') = true.
Proof.
  intros Hasc Hp. unfold startDate, relevantNewMoons.
  rewrite !slice_from_end by lia. unfold lastn.
  pose proof (newMoons_sorted data Hasc) as Hs.
  set (nm := newMoons data) in *.
  destruct (skipn (List.length nm - Z.to_nat (p + 1)) nm) as [| b tb] eqn:Eb.
  - now rewrite ge_invalid.
  - destruct (skipn_head_sorted notAfter nm
                (List.length nm - Z.to_nat (p' + 1))
                (List.length nm - Z.to_nat (p + 1)) b tb Hs) as [a [ta [Ea Hab]]];
      [lia | exact Eb |].
    rewrite Ea. now apply ge_earlier.
Qed.

Lemma filter_length_le {A} (f g : A -> bool) l :
  (forall x, f x = true -> g x = true) ->
  (List.length (filter f l) <= List.length (filter g l))%nat.
Proof.
  intros H. induction l as [| x rest IH]; [reflexivity |]. cbn [filter].
  destruct (f x) eqn:Ef.
  - rewrite (H x Ef). cbn [List.length]. lia.
  - destruct (g x); cbn [List.length]; lia.
Qed.

(** C7.  With the moon rows in ascending date order, selecting more cycles
    never selects fewer rows: for [0 <= p <= p'] the window of [p'] holds at
    least as many moon rows and at least as many price rows as that of
    [p].  (A period is a count of cycles; the selector offers 1 to 84.) *)
Theorem window_grows_with_period data bitcoinData p p' :
  ascending data -> 0 <= p <= p' ->
  (List.length (relevantMoonData data p) <=
   List.length (relevantMoonData data p'))%nat /\
  (List.length (relevantBitcoinData data bitcoinData p) <=
   List.length (relevantBitcoinData data bitcoinData p'))%nat.
Proof.
  intros Hasc Hp.
  split; apply filter_length_le; intros row; now apply startDate_earlier.
Qed.

Lemma ascending_scenarioMoon : ascending scenarioMoon.
Proof. repeat constructor; vm_compute; discriminate. Qed.

Lemma window_grows_with_period_witness :
  (List.length (relevantMoonData scenarioMoon 0) <=
   List.length (relevantMoonData scenarioMoon 1))%nat /\
  (List.length (relevantBitcoinData scenarioMoon scenarioPrice 0) <=
   List.length (relevantBitcoinData scenarioMoon scenarioPrice 1))%nat.
Proof.
  apply (window_grows_with_period scenarioMoon scenarioPrice 0 1).
  - exact ascending_scenarioMoon.
  - lia.
Defined.

(** ** Binary64 order, and [toFixed(2)] along it *)

Lemma digits2_pos_bounds m :
  2 ^ (Z.pos (digits2_pos m) - 1) <= Z.pos m < 2 ^ Z.pos (digits2_pos m).
Proof.
  induction m as [m IH | m IH |]; cbn [digits2_pos].
  - rewrite Pos2Z.inj_succ. change (Z.pos m~1) with (2 * Z.pos m + 1).
    replace (Z.succ (Z.pos (digits2_pos m)) - 1) with (Z.succ (Z.pos (digits2_pos m) - 1)) by lia.
    rewrite !Z.pow_succ_r by lia.
    destruct IH as [IH1 IH2]. revert IH1 IH2.
    generalize (2 ^ (Z.pos (digits2_pos m) - 1)) (2 ^ Z.pos (digits2_pos m)) (Z.pos m). intros; lia.
  - rewrite Pos2Z.inj_succ. change (Z.pos m~0) with (2 * Z.pos m).
    replace (Z.succ (Z.pos (digits2_pos m)) - 1) with (Z.succ (Z.pos (digits2_pos m) - 1)) by lia.
    rewrite !Z.pow_succ_r by lia.
    destruct IH as [IH1 IH2]. revert IH1 IH2.
    generalize (2 ^ (Z.pos (digits2_pos m) - 1)) (2 ^ Z.pos (digits2_pos m)) (Z.pos m). intros; lia.
  - simpl. lia.
Qed.

Lemma bounded_inv m e :
  SpecFloat.bounded prec emax m e = true ->
  -1074 <= e /\ Z.pos m < 2 ^ 53 /\ (-1074 < e -> 2 ^ 52 <= Z.pos m).
Proof.
  unfold SpecFloat.bounded, canonical_mantissa, fexp, SpecFloat.emin, prec, emax.
  intros H. apply andb_true_iff in H. destruct H as [H _].
  apply Z.eqb_eq in H.
  pose proof (digits2_pos_bounds m) as [Hlo Hhi].
  set (d := Z.pos (digits2_pos m)) in *.
  assert (Hd : 0 < d) by (subst d; lia).
  assert (Hc : (d = 53 /\ -1074 <= e) \/ (e = -1074 /\ d <= 53)) by lia.
  split; [lia |]. split.
  - apply Z.lt_le_trans with (2 ^ d); [exact Hhi |].
    apply Z.pow_le_mono_r; lia.
  - intros He. assert (d = 53) by lia. subst d.
    replace 52 with (Z.pos (digits2_pos m) - 1) by lia. exact Hlo.
Qed.

Lemma pow2_pos k : 0 <= k -> 0 < 2 ^ k.
Proof. intros. apply Z.pow_pos_nonneg; lia. Qed.

Lemma scaled_lt m1 e1 m2 e2 :
  SpecFloat.bounded prec emax m1 e1 = true ->
  SpecFloat.bounded prec emax m2 e2 = true ->
  e1 < e2 ->
  Z.pos m1 * 2 ^ (e1 + 1074) < Z.pos m2 * 2 ^ (e2 + 1074).
Proof.
  intros H1 H2 He.
  destruct (bounded_inv _ _ H1) as [He1 [Hm1 _]].
  destruct (bounded_inv _ _ H2) as [_ [_ Hm2]].
  specialize (Hm2 ltac:(lia)).
  replace (e2 + 1074) with ((e1 + 1074) + 1 + (e2 - e1 - 1)) by lia.
  rewrite (Z.pow_add_r 2 (e1 + 1074 + 1) (e2 - e1 - 1)) by lia.
  rewrite (Z.pow_add_r 2 (e1 + 1074) 1) by lia.
  pose proof (pow2_pos (e1 + 1074) ltac:(lia)) as Ha.
  pose proof (pow2_pos (e2 - e1 - 1) ltac:(lia)) as Hb.
  change (2 ^ 53) with 9007199254740992 in Hm1.
  change (2 ^ 52) with 4503599627370496 in Hm2.
  change (2 ^ 1) with 2.
  revert Ha Hb. generalize (2 ^ (e1 + 1074)) (2 ^ (e2 - e1 - 1)). intros a b Ha Hb.
  assert (S1 : Z.pos m1 * a < 9007199254740992 * a)
    by (apply Z.mul_lt_mono_pos_r; lia).
  assert (S2 : 9007199254740992 * a <= Z.pos m2 * (a * 2)) by nia.
  assert (S3 : Z.pos m2 * (a * 2) * 1 <= Z.pos m2 * (a * 2) * b)
    by (apply Z.mul_le_mono_nonneg_l; nia).
  replace (Z.pos m2 * (a * 2 * b)) with (Z.pos m2 * (a * 2) * b) by ring.
  lia.
Qed.

Lemma compare_scaled m1 e1 m2 e2 :
  SpecFloat.bounded prec emax m1 e1 = true ->
  SpecFloat.bounded prec emax m2 e2 = true ->
  match e1 ?= e2 with
  | Eq => Pos.compare_cont Eq m1 m2
  | Lt => Lt
  | Gt => Gt
  end = (Z.pos m1 * 2 ^ (e1 + 1074) ?= Z.pos m2 * 2 ^ (e2 + 1074)).
Proof.
  intros H1 H2. destruct (Z.compare_spec e1 e2) as [E | E | E].
  - subst e2. destruct (bounded_inv _ _ H1) as [He1 _].
    rewrite <- Zmult_compare_compat_r
      by (apply Z.lt_gt, pow2_pos; lia).
    reflexivity.
  - symmetry. apply Z.compare_lt_iff. now apply scaled_lt.
  - symmetry. apply Z.compare_gt_iff. now apply scaled_lt.
Qed.

Lemma scaled_pos m e :
  SpecFloat.bounded prec emax m e = true -> 0 < Z.pos m * 2 ^ (e + 1074).
Proof.
  intros H. destruct (bounded_inv _ _ H) as [He _].
  apply Z.mul_pos_pos; [lia | apply pow2_pos; lia].
Qed.

Lemma SFcompare_exact X Y :
  valid_binary X = true -> valid_binary Y = true ->
  X <> S754_nan -> Y <> S754_nan ->
  SFcompare X Y = Some (extended_compare (exactSF X) (exactSF Y)).
Proof.
  intros HX HY NX NY.
  destruct X as [sx | sx | | sx mx ex], Y as [sy | sy | | sy my ey];
    try congruence; cbn [SFcompare exactSF extended_compare];
    try (destruct sx; reflexivity); try (destruct sy; reflexivity);
    try (destruct sx, sy; reflexivity).
  - cbn [SpecFloat.valid_binary] in HY. pose proof (scaled_pos _ _ HY) as P.
    destruct sy; cbn [signed]; f_equal; symmetry;
      [apply Z.compare_gt_iff | apply Z.compare_lt_iff]; lia.
  - cbn [SpecFloat.valid_binary] in HX. pose proof (scaled_pos _ _ HX) as P.
    destruct sx; cbn [signed]; f_equal; symmetry;
      [apply Z.compare_lt_iff | apply Z.compare_gt_iff]; lia.
  - cbn [SpecFloat.valid_binary] in HX, HY.
    pose proof (scaled_pos _ _ HX) as PX. pose proof (scaled_pos _ _ HY) as PY.
    pose proof (compare_scaled _ _ _ _ HX HY) as C.
    destruct sx, sy; cbn [signed]; f_equal.
    + rewrite Z.compare_opp. rewrite (Z.compare_antisym (Z.pos mx * _)).
      rewrite <- C. destruct (ex ?= ey); reflexivity.
    + symmetry. apply Z.compare_lt_iff. lia.
    + symmetry. apply Z.compare_gt_iff. lia.
    + exact C.
Qed.

(** *** The order on [extended] *)
Lemma extended_compare_refl a : extended_compare a a = Eq.
Proof. destruct a; simpl; auto using Z.compare_refl. Qed.

Lemma extended_leb_trans a b c :
  extended_leb a b = true -> extended_leb b c = true -> extended_leb a c = true.
Proof.
  unfold extended_leb. destruct a as [| x |], b as [| y |], c as [| z |];
    simpl; try reflexivity; try discriminate.
  destruct (Z.compare_spec x y), (Z.compare_spec y z), (Z.compare_spec x z);
    try reflexivity; try discriminate; lia.
Qed.

Lemma extended_ltb_leb a b :
  extended_ltb a b = true -> extended_leb a b = true.
Proof. unfold extended_ltb, extended_leb. now destruct (extended_compare a b). Qed.

Lemma extended_not_ltb a b :
  extended_ltb a b = false -> extended_leb b a = true.
Proof.
  unfold extended_ltb, extended_leb. destruct a as [| x |], b as [| y |];
    simpl; try reflexivity; try discriminate.
  rewrite (Z.compare_antisym x y). destruct (x ?= y); simpl; congruence.
Qed.

(** *** Comparisons of binary64 numbers are comparisons of exact values *)
Lemma Prim2SF_not_nan x : PrimFloat.is_nan x = false -> Prim2SF x <> S754_nan.
Proof.
  intros H E. unfold PrimFloat.is_nan in H.
  rewrite FloatAxioms.eqb_spec, E in H. discriminate.
Qed.

Lemma compare_exact x y :
  PrimFloat.is_nan x = false -> PrimFloat.is_nan y = false ->
  SFcompare (Prim2SF x) (Prim2SF y) = Some (extended_compare (exact x) (exact y)).
Proof.
  intros Hx Hy. apply SFcompare_exact;
    auto using Prim2SF_valid, Prim2SF_not_nan.
Qed.

Lemma leb_exact x y :
  PrimFloat.is_nan x = false -> PrimFloat.is_nan y = false ->
  (x <=? y)%float = extended_leb (exact x) (exact y).
Proof.
  intros Hx Hy. rewrite FloatAxioms.leb_spec. unfold SFleb, extended_leb.
  rewrite (compare_exact x y Hx Hy).
  now destruct (extended_compare (exact x) (exact y)).
Qed.

Lemma ltb_exact x y :
  PrimFloat.is_nan x = false -> PrimFloat.is_nan y = false ->
  (x <? y)%float = extended_ltb (exact x) (exact y).
Proof.
  intros Hx Hy. rewrite FloatAxioms.ltb_spec. unfold SFltb, extended_ltb.
  rewrite (compare_exact x y Hx Hy).
  now destruct (extended_compare (exact x) (exact y)).
Qed.

Lemma SF_not_nan_is_nan x : Prim2SF x <> S754_nan -> PrimFloat.is_nan x = false.
Proof.
  intros H. unfold PrimFloat.is_nan. rewrite FloatAxioms.eqb_spec. unfold SFeqb.
  rewrite SFcompare_exact; auto using Prim2SF_valid.
  now rewrite extended_compare_refl.
Qed.

Lemma leb_not_nan x y :
  (x <=? y)%float = true ->
  PrimFloat.is_nan x = false /\ PrimFloat.is_nan y = false.
Proof.
  rewrite FloatAxioms.leb_spec. unfold SFleb. intros H.
  split; apply SF_not_nan_is_nan; intros E; rewrite E in H.
  - discriminate.
  - destruct (Prim2SF x); discriminate.
Qed.

Lemma half_up_scaled m e :
  -1074 <= e -> half_up (Z.pos m * 2 ^ (e + 1074)) = Fixed.hundredths m e.
Proof.
  intros He. unfold half_up, Fixed.hundredths.
  destruct (Z.leb_spec 0 e) as [H | H].
  - replace (2 ^ 1075) with (2 ^ 1074 * 2) by reflexivity.
    rewrite Z.pow_add_r by lia.
    replace (200 * (Z.pos m * (2 ^ e * 2 ^ 1074)) + 2 ^ 1074)
      with (2 ^ 1074 * (1 + (Z.pos m * 2 ^ e * 100) * 2)) by ring.
    rewrite Z.div_mul_cancel_l by (try apply Z.pow_nonzero; lia).
    rewrite Z.div_add by lia. reflexivity.
  - replace (2 ^ 1075) with (2 ^ (e + 1074) * 2 ^ (1 - e))
      by (rewrite <- Z.pow_add_r by lia; f_equal; lia).
    replace (2 ^ 1074) with (2 ^ (e + 1074) * 2 ^ (- e)) at 1
      by (rewrite <- Z.pow_add_r by lia; f_equal; lia).
    replace (200 * (Z.pos m * 2 ^ (e + 1074)) + 2 ^ (e + 1074) * 2 ^ (- e))
      with (2 ^ (e + 1074) * (Z.pos m * 200 + 2 ^ (- e))) by ring.
    rewrite Z.div_mul_cancel_l; try apply Z.pow_nonzero; lia.
Qed.

Lemma half_up_mono a b : a <= b -> half_up a <= half_up b.
Proof.
  intros H. unfold half_up. apply Z.div_le_mono; [reflexivity | lia].
Qed.

Lemma half_up_nonneg a : 0 <= a -> 0 <= half_up a.
Proof.
  intros H. unfold half_up. apply Z.div_pos; [| reflexivity].
  assert (0 < 2 ^ 1074) by reflexivity. lia.
Qed.

Lemma half_up_zero : half_up 0 = 0.
Proof. reflexivity. Qed.

Lemma roundZ_nonneg v : 0 <= v -> roundZ v = half_up v.
Proof.
  intros H. unfold roundZ. destruct (Z.eq_dec v 0) as [-> | N].
  - reflexivity.
  - rewrite Z.sgn_pos, Z.abs_eq by lia. lia.
Qed.

Lemma roundZ_neg v : v < 0 -> roundZ v = - half_up (- v).
Proof.
  intros H. unfold roundZ. rewrite Z.sgn_neg, Z.abs_neq by lia. lia.
Qed.

Lemma roundZ_mono v w : v <= w -> roundZ v <= roundZ w.
Proof.
  intros H.
  destruct (Z.lt_ge_cases v 0) as [Hv | Hv];
  destruct (Z.lt_ge_cases w 0) as [Hw | Hw];
    rewrite ?(roundZ_neg v), ?(roundZ_neg w), ?(roundZ_nonneg v), ?(roundZ_nonneg w)
      by assumption.
  - pose proof (half_up_mono (- w) (- v)). lia.
  - pose proof (half_up_nonneg (- v)). pose proof (half_up_nonneg w). lia.
  - lia.
  - now apply half_up_mono.
Qed.

Lemma round_extended_mono a b :
  extended_leb a b = true ->
  extended_leb (round_extended a) (round_extended b) = true.
Proof.
  unfold extended_leb. destruct a as [| v |], b as [| w |];
    simpl; try reflexivity; try discriminate.
  intros H. assert (v <= w).
  { destruct (Z.compare_spec v w); first [lia | discriminate]. }
  pose proof (roundZ_mono v w ltac:(assumption)).
  destruct (Z.compare_spec (roundZ v) (roundZ w)); first [reflexivity | lia].
Qed.

Lemma roundZ_signed s a :
  0 < a -> roundZ (signed s a) = signed s (half_up a).
Proof.
  intros Ha. unfold roundZ, signed. destruct s.
  - rewrite Z.sgn_neg, Z.abs_neq by lia. rewrite Z.opp_involutive. lia.
  - rewrite Z.sgn_pos, Z.abs_eq by lia. lia.
Qed.

Lemma large_exponent x s m e :
  Prim2SF x = S754_finite s m e ->
  (1e21 <=? abs x)%float = true -> 17 <= e.
Proof.
  intros E H. rewrite FloatAxioms.leb_spec, abs_spec, E in H.
  change (Prim2SF 1e21) with (S754_finite false 7629394531250000 17) in H.
  unfold SFleb in H. cbn [SFabs SFcompare] in H.
  destruct (Z.compare_spec 17 e); first [lia | discriminate].
Qed.

Lemma cents_of_float x :
  PrimFloat.is_nan x = false ->
  Fixed.cents (Fixed.of_float x) = Some (round_extended (exact x)).
Proof.
  intros Hx. pose proof (Prim2SF_valid x) as Hv.
  pose proof (Prim2SF_not_nan x Hx) as Hn.
  unfold Fixed.of_float, exact.
  destruct (Prim2SF x) as [s | s | | s m e] eqn:E; try congruence.
  - reflexivity.
  - now destruct s.
  - cbn [SpecFloat.valid_binary] in Hv.
    destruct (bounded_inv _ _ Hv) as [He _].
    cbn [exactSF round_extended].
    rewrite roundZ_signed by (now apply scaled_pos).
    rewrite half_up_scaled by exact He.
    destruct (1e21 <=? abs x)%float eqn:B; cbn [Fixed.cents]; [| reflexivity].
    pose proof (large_exponent x s m e E B) as H17.
    unfold Fixed.hundredths.
    replace (0 <=? e) with true by (symmetry; apply Z.leb_le; lia).
    reflexivity.
Qed.

(** [toFixed(2)] is monotone: a larger number prints a larger value. *)
Lemma of_float_monotone x y :
  (x <=? y)%float = true ->
  Fixed.leb (Fixed.of_float x) (Fixed.of_float y) = true.
Proof.
  intros H. destruct (leb_not_nan x y H) as [Hx Hy].
  unfold Fixed.leb. rewrite (cents_of_float x Hx), (cents_of_float y Hy).
  apply round_extended_mono. now rewrite <- leb_exact.
Qed.

Lemma leb_refl x : not_nan x -> (x <=? x)%float = true.
Proof.
  intros H. rewrite leb_exact by assumption. unfold extended_leb.
  now rewrite extended_compare_refl.
Qed.

Lemma leb_trans x y z :
  (x <=? y)%float = true -> (y <=? z)%float = true -> (x <=? z)%float = true.
Proof.
  intros Hxy Hyz.
  destruct (leb_not_nan _ _ Hxy) as [Hx Hy].
  destruct (leb_not_nan _ _ Hyz) as [_ Hz].
  rewrite leb_exact in * by assumption.
  now apply extended_leb_trans with (exact y).
Qed.

Lemma ltb_leb x y :
  not_nan x -> not_nan y -> (x <? y)%float = true -> (x <=? y)%float = true.
Proof.
  intros Hx Hy. rewrite ltb_exact, leb_exact by assumption.
  apply extended_ltb_leb.
Qed.

Lemma not_ltb_leb x y :
  not_nan x -> not_nan y -> (x <? y)%float = false -> (y <=? x)%float = true.
Proof.
  intros Hx Hy. rewrite ltb_exact, leb_exact by assumption.
  apply extended_not_ltb.
Qed.

Lemma extremum_In cmp l : forall c r,
  Lodash.baseExtremum_from cmp (Some c) l = Some r -> r = c \/ In r l.
Proof.
  induction l as [| x rest IH]; intros c r H; cbn [Lodash.baseExtremum_from] in H.
  - left. congruence.
  - destruct (cmp x c); apply IH in H; destruct H as [-> | H]; auto using in_eq, in_cons.
Qed.

Lemma max_from_upper l : forall c r,
  not_nan c -> Forall not_nan l ->
  Lodash.baseExtremum_from Lodash.baseGt (Some c) l = Some r ->
  (c <=? r)%float = true /\ Forall (fun x => (x <=? r)%float = true) l.
Proof.
  induction l as [| x rest IH]; intros c r Hc Hl H;
    cbn [Lodash.baseExtremum_from] in H.
  - injection H as <-. split; [now apply leb_refl | constructor].
  - inversion Hl as [| ? ? Hx Hrest]; subst.
    change (Lodash.baseGt x c) with (c <? x)%float in H.
    destruct (c <? x)%float eqn:E.
    + destruct (IH x r Hx Hrest H) as [Hxr Hall].
      split; [| now constructor].
      apply leb_trans with x; [now apply ltb_leb | exact Hxr].
    + destruct (IH c r Hc Hrest H) as [Hcr Hall].
      split; [exact Hcr |]. constructor; [| exact Hall].
      apply leb_trans with c; [now apply not_ltb_leb | exact Hcr].
Qed.

Lemma max_upper valid hi :
  Forall not_nan valid -> Lodash.max valid = Some hi ->
  Forall (fun x => (x <=? hi)%float = true) valid.
Proof.
  intros Hv H. destruct valid as [| x rest]; [constructor |].
  inversion Hv as [| ? ? Hx Hrest]; subst.
  unfold Lodash.max in H. cbn [Lodash.baseExtremum_from] in H.
  rewrite Hx in H. cbn [negb] in H.
  destruct (max_from_upper rest x hi Hx Hrest H) as [Hxh Hall].
  now constructor.
Qed.

Lemma min_In valid lo :
  Forall not_nan valid -> Lodash.min valid = Some lo -> In lo valid.
Proof.
  intros Hv H. destruct valid as [| x rest]; [discriminate |].
  inversion Hv as [| ? ? Hx Hrest]; subst.
  unfold Lodash.min in H. cbn [Lodash.baseExtremum_from] in H.
  rewrite Hx in H. cbn [negb] in H.
  apply extremum_In in H. destruct H as [-> | H]; [now left | now right].
Qed.

Lemma min_le_max valid lo hi :
  Forall not_nan valid ->
  Lodash.min valid = Some lo -> Lodash.max valid = Some hi ->
  (lo <=? hi)%float = true.
Proof.
  intros Hv Hlo Hhi.
  pose proof (min_In valid lo Hv Hlo) as Hin.
  pose proof (max_upper valid hi Hv Hhi) as Hall.
  now apply (proj1 (Forall_forall _ _) Hall).
Qed.

(** ** Minimum, mean and maximum of a phase *)

(** C8 (amended).  An entry with [count > 0] carries the [toFixed(2)] texts
    of the minimum, the mean and the maximum of its phase's valid values,
    all three computed in binary64.  Its [minRange] is at most its
    [maxRange]; and [minRange <= avgRange <= maxRange] whenever the mean as
    computed lies between the minimum and the maximum. *)
Theorem ranges_ordered st data bitcoinData selectedPeriod :
  data <> [] -> bitcoinData <> [] ->
  exists st',
    processData st data bitcoinData selectedPeriod = Normal st' /\
    forall e, In e (processedData st') -> (0 < Entry.count e)%nat ->
      exists lo mean hi,
        let valid :=
          validRanges (rowsOfPhase (Entry.phase e)
                         (relevantMoonData data selectedPeriod)) in
        Lodash.min valid = Some lo /\
        Lodash.mean (map JS.Num valid) = mean /\
        Lodash.max valid = Some hi /\
        Entry.minRange e = Fixed.show (Fixed.of_float lo) /\
        Entry.avgRange e = Fixed.show (Fixed.of_float mean) /\
        Entry.maxRange e = Fixed.show (Fixed.of_float hi) /\
        Fixed.leb (Fixed.of_float lo) (Fixed.of_float hi) = true /\
        ((lo <=? mean)%float = true -> (mean <=? hi)%float = true ->
         Fixed.leb (Fixed.of_float lo) (Fixed.of_float mean) = true /\
         Fixed.leb (Fixed.of_float mean) (Fixed.of_float hi) = true).
Proof.
  intros Hd Hb. publish.
  intros e He Hc. apply published_entry in He.
  destruct He as [phase [_ He]]. subst e.
  unfold phaseSummary, summary in *.
  cbn [Entry.phase Entry.count Entry.avgRange Entry.maxRange Entry.minRange
       fst snd] in *.
  set (valid := validRanges (rowsOfPhase phase (relevantMoonData data selectedPeriod)))
    in *.
  assert (Hv : Forall not_nan valid) by apply validRanges_not_nan.
  destruct valid as [| x rest] eqn:E; [cbn in Hc; lia |].
  inversion Hv as [| ? ? Hx Hrest]; subst.
  destruct (baseExtremum_defined Lodash.baseLt x rest Hx) as [lo Hlo].
  destruct (baseExtremum_defined Lodash.baseGt x rest Hx) as [hi Hhi].
  exists lo, (Lodash.mean (map JS.Num (x :: rest))), hi.
  cbv zeta. unfold Lodash.max, Lodash.min. rewrite Hlo, Hhi.
  repeat (split; [reflexivity |]).
  split.
  - apply of_float_monotone. now apply (min_le_max (x :: rest)).
  - intros H1 H2. split; now apply of_float_monotone.
Qed.

Lemma ranges_ordered_witness :
  exists st',
    processData initialState scenarioMoon scenarioPrice 1 = Normal st' /\
    forall e, In e (processedData st') -> (0 < Entry.count e)%nat ->
      exists lo mean hi,
        let valid :=
          validRanges (rowsOfPhase (Entry.phase e)
                         (relevantMoonData scenarioMoon 1)) in
        Lodash.min valid = Some lo /\
        Lodash.mean (map JS.Num valid) = mean /\
        Lodash.max valid = Some hi /\
        Entry.minRange e = Fixed.show (Fixed.of_float lo) /\
        Entry.avgRange e = Fixed.show (Fixed.of_float mean) /\
        Entry.maxRange e = Fixed.show (Fixed.of_float hi) /\
        Fixed.leb (Fixed.of_float lo) (Fixed.of_float hi) = true /\
        ((lo <=? mean)%float = true -> (mean <=? hi)%float = true ->
         Fixed.leb (Fixed.of_float lo) (Fixed.of_float mean) = true /\
         Fixed.leb (Fixed.of_float mean) (Fixed.of_float hi) = true).
Proof.
  apply (ranges_ordered initialState scenarioMoon scenarioPrice 1);
    discriminate.
Defined.

(** C8, as stated, fails when the sum of a phase's values overflows: on
    [overflowMoon] the two New Moon values are 1e308 each, their binary64
    mean is [Infinity], and the entry reads [avgRange = "Infinity"] above
    [maxRange = "1e+308"]. *)
Lemma overflow_average_above_max :
  processData initialState overflowMoon overflowPrice 1 =
  Normal
    {| processedData :=
         [ Entry.make "New Moon" "Infinity" "1e+308" "1e+308" 2 (Some "2.00"%string);
           Entry.make "First Quarter" "0.00" "0.00" "0.00" 0 (Some "2.00"%string);
           Entry.make "Full Moon" "0.00" "0.00" "0.00" 0 (Some "2.00"%string);
           Entry.make "Last Quarter" "0.00" "0.00" "0.00" 0 (Some "2.00"%string) ];
       periodAverage := 2 |} /\
  validRanges (rowsOfPhase "New Moon" (relevantMoonData overflowMoon 1)) =
    [1e308; 1e308]%float /\
  Lodash.mean (map JS.Num [1e308; 1e308]%float) = infinity /\
  Lodash.max [1e308; 1e308]%float = Some 1e308%float /\
  Fixed.leb (Fixed.of_float infinity) (Fixed.of_float 1e308) = false.
Proof. repeat apply conj; vm_compute; reflexivity. Qed.


(** ** More history than the file holds *)

Lemma slice_all {A} (n : Z) (l : list A) :
  0 <= n -> Z.of_nat (List.length l) <= n + 1 -> JS.slice (- n - 1) l = l.
Proof.
  intros Hn Hl. rewrite slice_from_end by exact Hn. unfold lastn.
  replace (List.length l - Z.to_nat (n + 1))%nat with 0%nat by lia.
  reflexivity.
Qed.

Lemma processData_startDate st data bitcoinData p p' :
  startDate data p' = startDate data p ->
  processData st data bitcoinData p' = processData st data bitcoinData p.
Proof.
  intros E. unfold processData, periodMean, relevantBitcoinData, relevantMoonData.
  now rewrite E.
Qed.

(** X2.  When the moon file holds no more than [p + 1] New Moon rows, the
    window starts at the first of them, and asking for a longer period
    publishes the same state. *)
Theorem period_beyond_history st data bitcoinData p p' :
  0 <= p <= p' ->
  Z.of_nat (List.length (newMoons data)) <= p + 1 ->
  startDate data p = hd None (newMoons data) /\
  processData st data bitcoinData p' = processData st data bitcoinData p.
Proof.
  intros Hp Hn.
  assert (S : forall q, p <= q -> startDate data q = hd None (newMoons data)).
  { intros q Hq. unfold startDate, relevantNewMoons.
    rewrite slice_all by lia. now destruct (newMoons data). }
  split; [apply S; lia |].
  apply processData_startDate. rewrite !S by lia. reflexivity.
Qed.

Lemma period_beyond_history_witness :
  startDate scenarioMoon 1 = hd None (newMoons scenarioMoon) /\
  processData initialState scenarioMoon scenarioPrice 84 =
  processData initialState scenarioMoon scenarioPrice 1.
Proof.
  apply (period_beyond_history initialState scenarioMoon scenarioPrice 1 84).
  - lia.
  - vm_compute. discriminate.
Defined.

(** ** A window without a start *)

Lemma published_blank data bitcoinData p :
  startDate data p = None -> published data bitcoinData p = blank.
Proof.
  intros E. unfold published, periodMean, relevantBitcoinData, relevantMoonData.
  rewrite E, !relevantRows_invalid. vm_compute. reflexivity.
Qed.

(** X3.  When the New Moon row that opens the window has a date that does
    not parse, no row is selected, whatever the rows hold: the run
    publishes the four all-zero entries and NaN as period average. *)
Theorem invalid_start_blank st data bitcoinData p :
  data <> [] -> bitcoinData <> [] ->
  startDate data p = None ->
  relevantMoonData data p = [] /\
  relevantBitcoinData data bitcoinData p = [] /\
  processData st data bitcoinData p = Normal blank.
Proof.
  intros Hd Hb E. unfold relevantMoonData, relevantBitcoinData.
  rewrite E, !relevantRows_invalid. repeat apply conj; try reflexivity.
  rewrite processData_published by assumption. f_equal. now apply published_blank.
Qed.

Lemma invalid_start_blank_witness :
  relevantMoonData undatedMoon 12 = [] /\
  relevantBitcoinData undatedMoon scenarioPrice 12 = [] /\
  processData initialState undatedMoon scenarioPrice 12 = Normal blank.
Proof.
  apply (invalid_start_blank initialState undatedMoon scenarioPrice 12);
    [discriminate | discriminate | reflexivity].
Defined.

(** X4.  When no price row of the window has a value that passes
    [!isNaN], the period average is NaN, in [periodAverage] and as the text
    of every entry, while the table still has its four entries. *)
Theorem no_price_in_window st data bitcoinData p :
  data <> [] -> bitcoinData <> [] ->
  Forall (fun row => JS.isNaN (Row.price_range_percent row) = true)
    (relevantBitcoinData data bitcoinData p) ->
  exists st',
    processData st data bitcoinData p = Normal st' /\
    PrimFloat.is_nan (periodAverage st') = true /\
    map Entry.periodAvg (processedData st') =
      map (fun _ => Some "NaN"%string) phaseOrder.
Proof.
  intros Hd Hb Hall. publish.
  assert (E : periodMean data bitcoinData p = nan).
  { unfold periodMean, periodMean_of.
    induction Hall as [| row rows Hrow _ IH]; [reflexivity |].
    cbn [map filter]. now rewrite Hrow. }
  unfold published. rewrite E. split; reflexivity.
Qed.

Lemma no_price_in_window_witness :
  exists st',
    processData initialState scenarioMoon
      [Row.make (isoDate 2023 12 1) "undefined" (JS.Num 7)] 1 = Normal st' /\
    PrimFloat.is_nan (periodAverage st') = true /\
    map Entry.periodAvg (processedData st') =
      map (fun _ => Some "NaN"%string) phaseOrder.
Proof.
  apply (no_price_in_window initialState scenarioMoon
           [Row.make (isoDate 2023 12 1) "undefined" (JS.Num 7)] 1);
    [discriminate | discriminate | vm_compute; constructor].
Defined.

(** ** What each dataset reaches *)

(** X5.  The statistics of the phases come from the moon file alone, and
    the period average takes from the moon file only its New Moon dates:
    two runs on the same moon rows agree on every entry's phase, ranges and
    count whatever the price rows are, and two runs on the same price rows
    agree on the period average when the New Moon dates agree. *)
Theorem datasets_reach st1 st2 data data' bitcoinData bitcoinData' p :
  data <> [] -> data' <> [] -> bitcoinData <> [] -> bitcoinData' <> [] ->
  exists s1 s2 s3,
    processData st1 data bitcoinData p = Normal s1 /\
    processData st2 data bitcoinData' p = Normal s2 /\
    processData st2 data' bitcoinData p = Normal s3 /\
    map stats (processedData s1) = map stats (processedData s2) /\
    (newMoons data = newMoons data' ->
     periodAverage s1 = periodAverage s3 /\
     map Entry.periodAvg (processedData s1) =
     map Entry.periodAvg (processedData s3)).
Proof.
  intros Hd Hd' Hb Hb'.
  exists (published data bitcoinData p), (published data bitcoinData' p),
    (published data' bitcoinData p).
  repeat (split; [now apply processData_published |]).
  split; [reflexivity |].
  intros E.
  assert (M : periodMean data bitcoinData p = periodMean data' bitcoinData p).
  { unfold periodMean, relevantBitcoinData, startDate, relevantNewMoons.
    now rewrite E. }
  unfold published. cbn [periodAverage processedData]. rewrite M.
  split; reflexivity.
Qed.

Lemma datasets_reach_witness :
  exists s1 s2 s3,
    processData initialState scenarioMoon scenarioPrice 1 = Normal s1 /\
    processData blank scenarioMoon emptyFieldPrice 1 = Normal s2 /\
    processData blank noisyMoon scenarioPrice 1 = Normal s3 /\
    map stats (processedData s1) = map stats (processedData s2) /\
    (newMoons scenarioMoon = newMoons noisyMoon ->
     periodAverage s1 = periodAverage s3 /\
     map Entry.periodAvg (processedData s1) =
     map Entry.periodAvg (processedData s3)).
Proof.
  apply (datasets_reach initialState blank scenarioMoon noisyMoon
           scenarioPrice emptyFieldPrice 1); discriminate.
Defined.

(** ** Samples *)

Lemma validRanges_length rows :
  List.length (validRanges rows) = List.length (filter numeric rows).
Proof.
  unfold validRanges, numeric.
  induction rows as [| row rest IH]; [reflexivity |]. cbn [map filter].
  destruct (negb (PrimFloat.is_nan (JS.parseFloat (Row.price_range_percent row))));
    cbn [List.length]; now rewrite IH.
Qed.

Lemma phase_count_cons phase row rows :
  List.length (filter numeric (rowsOfPhase phase (row :: rows))) =
  (indicator (String.eqb (Row.phase row) phase && numeric row) +
   List.length (filter numeric (rowsOfPhase phase rows)))%nat.
Proof.
  unfold rowsOfPhase. cbn [filter].
  destruct (String.eqb (Row.phase row) phase); [| reflexivity].
  cbn [filter andb]. now destruct (numeric row).
Qed.

Lemma one_phase row :
  (indicator (String.eqb (Row.phase row) "New Moon") +
   indicator (String.eqb (Row.phase row) "First Quarter") +
   indicator (String.eqb (Row.phase row) "Full Moon") +
   indicator (String.eqb (Row.phase row) "Last Quarter"))%nat =
  indicator (canonical row).
Proof.
  unfold canonical, phaseOrder. cbn [existsb].
  destruct (String.eqb (Row.phase row) "New Moon") eqn:E1;
  destruct (String.eqb (Row.phase row) "First Quarter") eqn:E2;
  destruct (String.eqb (Row.phase row) "Full Moon") eqn:E3;
  destruct (String.eqb (Row.phase row) "Last Quarter") eqn:E4;
    try reflexivity;
    repeat match goal with
           | H : String.eqb _ _ = true |- _ => apply String.eqb_eq in H
           end;
    congruence.
Qed.

Lemma samples_window mean rows :
  samples (map (phaseSummary mean rows) phaseOrder) =
  List.length (filter (fun row => canonical row && numeric row) rows).
Proof.
  unfold samples, phaseOrder, phaseSummary, summary.
  cbn [map fold_right Entry.count fst snd]. rewrite !validRanges_length.
  induction rows as [| row rest IH]; [reflexivity |].
  rewrite !phase_count_cons. cbn [filter].
  pose proof (one_phase row) as H1.
  destruct (numeric row).
  - rewrite !andb_true_r in *.
    destruct (canonical row); cbn [indicator List.length] in *; lia.
  - rewrite !andb_false_r. cbn [indicator]. lia.
Qed.

(** X6.  Every row of the window under one of the four phases and with a
    value that parses to a number is a sample of exactly one entry: the
    counts of the table add up to the number of such rows. *)
Theorem samples_add_up st data bitcoinData p :
  data <> [] -> bitcoinData <> [] ->
  exists st',
    processData st data bitcoinData p = Normal st' /\
    samples (processedData st') =
    List.length (filter (fun row => canonical row && numeric row)
                   (relevantMoonData data p)) /\
    (samples (processedData st') <= List.length (relevantMoonData data p))%nat.
Proof.
  intros Hd Hb. publish. unfold published. cbn [processedData].
  rewrite samples_window. split; [reflexivity | apply List.filter_length_le].
Qed.

Lemma samples_add_up_witness :
  exists st',
    processData initialState noisyMoon scenarioPrice 1 = Normal st' /\
    samples (processedData st') =
    List.length (filter (fun row => canonical row && numeric row)
                   (relevantMoonData noisyMoon 1)) /\
    (samples (processedData st') <= List.length (relevantMoonData noisyMoon 1))%nat.
Proof.
  apply (samples_add_up initialState noisyMoon scenarioPrice 1); discriminate.
Defined.

(** ** Rows of another phase *)

Lemma filter_filter_comm {A} (f g : A -> bool) l :
  filter f (filter g l) = filter g (filter f l).
Proof.
  induction l as [| x rest IH]; [reflexivity |]. cbn [filter].
  destruct (f x) eqn:Ef, (g x) eqn:Eg; cbn [filter];
    rewrite ?Ef, ?Eg, IH; reflexivity.
Qed.

Lemma filter_implied {A} (f g : A -> bool) l :
  (forall x, f x = true -> g x = true) -> filter f (filter g l) = filter f l.
Proof.
  intros H. induction l as [| x rest IH]; [reflexivity |]. cbn [filter].
  destruct (g x) eqn:Eg; cbn [filter].
  - now rewrite IH.
  - destruct (f x) eqn:Ef; [| exact IH].
    apply H in Ef. congruence.
Qed.

Lemma canonical_phase row phase :
  In phase phaseOrder -> String.eqb (Row.phase row) phase = true ->
  canonical row = true.
Proof.
  intros Hp E. unfold canonical. apply existsb_exists. now exists phase.
Qed.

Lemma newMoons_canonical data : newMoons (filter canonical data) = newMoons data.
Proof.
  unfold newMoons. f_equal. apply filter_implied. intros row E.
  apply (canonical_phase row "New Moon"); [now left | exact E].
Qed.

Lemma empty_rows_early st data p : processData st data [] p = Normal st.
Proof.
  unfold processData. cbn [List.length Nat.eqb]. now rewrite orb_true_r.
Qed.

(** X7.  Rows of the moon file under a phase other than the four are
    ignored altogether: a run on the file without them publishes the same
    state. *)
Theorem other_phases_ignored st data bitcoinData p :
  filter canonical data <> [] ->
  processData st (filter canonical data) bitcoinData p =
  processData st data bitcoinData p.
Proof.
  intros Hc.
  assert (Hd : data <> []) by (intros ->; now apply Hc).
  destruct bitcoinData as [| price prices].
  - rewrite !empty_rows_early; reflexivity.
  - rewrite !processData_published by (assumption || discriminate).
    f_equal.
    assert (S : startDate (filter canonical data) p = startDate data p).
    { unfold startDate, relevantNewMoons. now rewrite newMoons_canonical. }
    unfold published, periodMean, relevantBitcoinData, relevantMoonData.
    rewrite S. f_equal.
    apply map_ext_in. intros phase Hp.
    unfold phaseSummary, rowsOfPhase, relevantRows. f_equal. f_equal.
    rewrite (filter_filter_comm _ canonical).
    apply filter_implied. intros row E. now apply (canonical_phase row phase).
Qed.

Lemma other_phases_ignored_witness :
  processData initialState (filter canonical noisyMoon) scenarioPrice 1 =
  processData initialState noisyMoon scenarioPrice 1.
Proof.
  apply (other_phases_ignored initialState noisyMoon scenarioPrice 1).
  vm_compute. discriminate.
Defined.

(** ** The extremes of a phase *)

Lemma min_from_lower l : forall c r,
  not_nan c -> Forall not_nan l ->
  Lodash.baseExtremum_from Lodash.baseLt (Some c) l = Some r ->
  (r <=? c)%float = true /\ Forall (fun x => (r <=? x)%float = true) l.
Proof.
  induction l as [| x rest IH]; intros c r Hc Hl H;
    cbn [Lodash.baseExtremum_from] in H.
  - injection H as <-. split; [now apply leb_refl | constructor].
  - inversion Hl as [| ? ? Hx Hrest]; subst.
    change (Lodash.baseLt x c) with (x <? c)%float in H.
    destruct (x <? c)%float eqn:E.
    + destruct (IH x r Hx Hrest H) as [Hrx Hall].
      split; [| now constructor].
      apply leb_trans with x; [exact Hrx | now apply ltb_leb].
    + destruct (IH c r Hc Hrest H) as [Hrc Hall].
      split; [exact Hrc |]. constructor; [| exact Hall].
      apply leb_trans with c; [exact Hrc | now apply not_ltb_leb].
Qed.

Lemma min_lower valid lo :
  Forall not_nan valid -> Lodash.min valid = Some lo ->
  Forall (fun x => (lo <=? x)%float = true) valid.
Proof.
  intros Hv H. destruct valid as [| x rest]; [constructor |].
  inversion Hv as [| ? ? Hx Hrest]; subst.
  unfold Lodash.min in H. cbn [Lodash.baseExtremum_from] in H.
  rewrite Hx in H. cbn [negb] in H.
  destruct (min_from_lower rest x lo Hx Hrest H) as [Hlx Hall].
  now constructor.
Qed.

Lemma max_In valid hi :
  Forall not_nan valid -> Lodash.max valid = Some hi -> In hi valid.
Proof.
  intros Hv H. destruct valid as [| x rest]; [discriminate |].
  inversion Hv as [| ? ? Hx Hrest]; subst.
  unfold Lodash.max in H. cbn [Lodash.baseExtremum_from] in H.
  rewrite Hx in H. cbn [negb] in H.
  apply extremum_In in H. destruct H as [-> | H]; [now left | now right].
Qed.

(** X8.  The [minRange] and [maxRange] of an entry with samples are the
    texts of two of its phase's valid values, one not above and one not
    below any valid value of the phase. *)
Theorem extremes_attained st data bitcoinData p :
  data <> [] -> bitcoinData <> [] ->
  exists st',
    processData st data bitcoinData p = Normal st' /\
    forall e, In e (processedData st') -> (0 < Entry.count e)%nat ->
      exists lo hi,
        let valid :=
          validRanges (rowsOfPhase (Entry.phase e) (relevantMoonData data p)) in
        In lo valid /\ In hi valid /\
        Entry.minRange e = toFixed2 lo /\
        Entry.maxRange e = toFixed2 hi /\
        Forall (fun x => (lo <=? x)%float = true /\ (x <=? hi)%float = true)
          valid.
Proof.
  intros Hd Hb. publish.
  intros e He Hc. apply published_entry in He.
  destruct He as [phase [_ He]]. subst e.
  unfold phaseSummary, summary in *.
  cbn [Entry.phase Entry.count Entry.maxRange Entry.minRange fst snd] in *.
  set (valid := validRanges (rowsOfPhase phase (relevantMoonData data p))) in *.
  assert (Hv : Forall not_nan valid) by apply validRanges_not_nan.
  destruct valid as [| x rest] eqn:E; [cbn in Hc; lia |].
  rewrite <- E in *.
  assert (Hx : not_nan x) by (rewrite E in Hv; now inversion Hv).
  destruct (baseExtremum_defined Lodash.baseLt x rest Hx) as [lo Hlo].
  destruct (baseExtremum_defined Lodash.baseGt x rest Hx) as [hi Hhi].
  fold (Lodash.min (x :: rest)) in Hlo. fold (Lodash.max (x :: rest)) in Hhi.
  rewrite <- E in Hlo, Hhi.
  exists lo, hi. cbv zeta. rewrite Hlo, Hhi.
  split; [now apply min_In |]. split; [now apply max_In |].
  split; [reflexivity |]. split; [reflexivity |].
  pose proof (min_lower valid lo Hv Hlo) as L.
  pose proof (max_upper valid hi Hv Hhi) as U.
  rewrite Forall_forall in *. intros y Hy. split; [now apply L | now apply U].
Qed.

Lemma extremes_attained_witness :
  exists st',
    processData initialState scenarioMoon scenarioPrice 1 = Normal st' /\
    forall e, In e (processedData st') -> (0 < Entry.count e)%nat ->
      exists lo hi,
        let valid :=
          validRanges (rowsOfPhase (Entry.phase e) (relevantMoonData scenarioMoon 1)) in
        In lo valid /\ In hi valid /\
        Entry.minRange e = toFixed2 lo /\
        Entry.maxRange e = toFixed2 hi /\
        Forall (fun x => (lo <=? x)%float = true /\ (x <=? hi)%float = true)
          valid.
Proof.
  apply (extremes_attained initialState scenarioMoon scenarioPrice 1);
    discriminate.
Defined.

(** ** Values that are not numbers *)

Lemma validRanges_numeric rows : validRanges (filter numeric rows) = validRanges rows.
Proof.
  unfold validRanges. induction rows as [| row rest IH]; [reflexivity |].
  cbn [filter map]. destruct (numeric row) eqn:E; unfold numeric in E.
  - cbn [map filter]. rewrite E. now rewrite IH.
  - rewrite E. exact IH.
Qed.

(** X9.  In the statistics of a phase a row whose [price_range_percent]
    is absent, empty, a boolean or NaN is as good as not there: every
    entry of the table is what the summarizing callback returns on the
    phase's rows that do hold a number. *)
Theorem non_numbers_left_out st data bitcoinData p :
  data <> [] -> bitcoinData <> [] ->
  exists st',
    processData st data bitcoinData p = Normal st' /\
    forall e, In e (processedData st') ->
      summarize (periodMean data bitcoinData p)
        (Entry.phase e,
         filter numeric (rowsOfPhase (Entry.phase e) (relevantMoonData data p)))
      = Normal e.
Proof.
  intros Hd Hb. publish.
  intros e He. apply published_entry in He.
  destruct He as [phase [_ He]]. subst e.
  rewrite summarize_summary. f_equal.
  unfold phaseSummary, summary. cbn [Entry.phase fst snd].
  now rewrite validRanges_numeric.
Qed.

Lemma non_numbers_left_out_witness :
  exists st',
    processData initialState noisyMoon scenarioPrice 1 = Normal st' /\
    forall e, In e (processedData st') ->
      summarize (periodMean noisyMoon scenarioPrice 1)
        (Entry.phase e,
         filter numeric (rowsOfPhase (Entry.phase e) (relevantMoonData noisyMoon 1)))
      = Normal e.
Proof.
  apply (non_numbers_left_out initialState noisyMoon scenarioPrice 1);
    discriminate.
Defined.

(** ** The period average of a window of numbers *)

Lemma filter_map_comm {A B} (f : A -> B) (p : B -> bool) l :
  filter p (map f l) = map f (filter (fun a => p (f a)) l).
Proof.
  induction l as [| a rest IH]; [reflexivity |]. cbn [map filter].
  destruct (p (f a)); cbn [map]; now rewrite IH.
Qed.

Lemma kept_numbers values :
  Forall numberOrAbsent values ->
  filter (fun range => negb (JS.isNaN range)) values =
  map JS.Num (numbersOf values).
Proof.
  induction 1 as [| v rest Hv _ IH]; [reflexivity |].
  destruct v as [| | b | x]; try destruct Hv; cbn [numbersOf].
  - exact IH.
  - cbn [filter]. unfold JS.isNaN at 1. cbn [JS.ToNumber].
    destruct (PrimFloat.is_nan x); cbn [negb map]; [exact IH | now rewrite IH].
Qed.

Lemma baseSum_from_numbers rest : forall a,
  Lodash.baseSum_from (JS.Num a) (map JS.Num rest) =
  JS.Num (fold_left PrimFloat.add rest a).
Proof.
  induction rest as [| x rest IH]; intros a; [reflexivity |].
  cbn [map Lodash.baseSum_from fold_left]. unfold JS.add.
  cbn [JS.ToNumber]. apply IH.
Qed.

Lemma mean_numbers numbers :
  Lodash.mean (map JS.Num numbers) = binaryMean numbers.
Proof.
  destruct numbers as [| x rest]; [reflexivity |].
  unfold Lodash.mean, binaryMean, Lodash.baseSum.
  cbn [map Lodash.baseSum_from]. rewrite baseSum_from_numbers.
  cbn [JS.ToNumber]. f_equal.
  unfold JS.length_number. cbn [List.length]. now rewrite length_map.
Qed.

(** X10.  When every price value of the window is a number or absent, the
    period average is the binary64 mean of the numbers that are not NaN,
    added in the order of the rows: every entry carries its [toFixed(2)]
    text as [periodAvg], and [periodAverage] is the number that text
    denotes. *)
Theorem periodAverage_of_numbers st data bitcoinData p :
  data <> [] -> bitcoinData <> [] ->
  Forall (fun row => numberOrAbsent (Row.price_range_percent row))
    (relevantBitcoinData data bitcoinData p) ->
  exists st',
    processData st data bitcoinData p = Normal st' /\
    let mean :=
      binaryMean
        (numbersOf
           (map Row.price_range_percent
              (relevantBitcoinData data bitcoinData p))) in
    periodAverage st' = Fixed.Number (Fixed.of_float mean) /\
    map Entry.periodAvg (processedData st') =
      map (fun _ => Some (toFixed2 mean)) phaseOrder.
Proof.
  intros Hd Hb Hall. publish.
  assert (E : periodMean data bitcoinData p =
              binaryMean
                (numbersOf
                   (map Row.price_range_percent
                      (relevantBitcoinData data bitcoinData p)))).
  { unfold periodMean, periodMean_of.
    rewrite kept_numbers by (apply Forall_map; exact Hall).
    apply mean_numbers. }
  unfold published. rewrite E. split; reflexivity.
Qed.

Lemma periodAverage_of_numbers_witness :
  exists st',
    processData initialState scenarioMoon scenarioPrice 1 = Normal st' /\
    let mean :=
      binaryMean
        (numbersOf
           (map Row.price_range_percent
              (relevantBitcoinData scenarioMoon scenarioPrice 1))) in
    periodAverage st' = Fixed.Number (Fixed.of_float mean) /\
    map Entry.periodAvg (processedData st') =
      map (fun _ => Some (toFixed2 mean)) phaseOrder.
Proof.
  apply (periodAverage_of_numbers initialState scenarioMoon scenarioPrice 1);
    [discriminate | discriminate | vm_compute; repeat constructor].
Defined.

(** ** The shape of the window *)

Lemma ge_later a b start :
  notAfter a b -> JS.ge a start = true -> JS.ge b start = true.
Proof.
  destruct a as [x |], b as [y |], start as [s |]; simpl;
    try tauto; try discriminate.
  intros H E. apply Z.leb_le in E. apply Z.leb_le. lia.
Qed.

Lemma relevantRows_suffix start rows :
  StronglySorted (fun a b => notAfter (Row.date a) (Row.date b)) rows ->
  exists k, relevantRows start rows = skipn k rows.
Proof.
  induction 1 as [| row rest Hs IH Hall].
  - now exists 0%nat.
  - unfold relevantRows in *. cbn [filter].
    destruct (JS.ge (Row.date row) start) eqn:E.
    + exists 0%nat. cbn [skipn]. f_equal.
      apply forallb_filter_id. apply forallb_forall. intros r Hr.
      apply (proj1 (Forall_forall _ _) Hall) in Hr.
      now apply (ge_later (Row.date row)).
    + destruct IH as [k IH]. now exists (S k).
Qed.

Lemma newMoons_relevantRows start data :
  newMoons (relevantRows start data) =
  filter (fun d => JS.ge d start) (newMoons data).
Proof.
  unfold newMoons, relevantRows.
  rewrite filter_filter_comm, filter_map_comm. reflexivity.
Qed.

Lemma filter_skipn_length {A} (f : A -> bool) k l :
  (List.length (filter f (skipn k l)) <= List.length (filter f l))%nat.
Proof.
  rewrite <- (firstn_skipn k l) at 2. rewrite filter_app, length_app. lia.
Qed.

Lemma suffix_in_window (nm : list JS.Time) k :
  StronglySorted notAfter nm ->
  hd None (skipn k nm) <> None ->
  filter (fun d => JS.ge d (hd None (skipn k nm))) (skipn k nm) = skipn k nm.
Proof.
  intros Hs Hstart. apply (StronglySorted_skipn _ k) in Hs.
  destruct (skipn k nm) as [| d rest]; [reflexivity |].
  cbn [hd] in *. destruct d as [y |]; [| congruence].
  apply forallb_filter_id. apply forallb_forall. intros d [<- | Hd].
  - apply Z.leb_refl.
  - inversion Hs as [| ? ? _ Hall]; subst.
    apply (proj1 (Forall_forall _ _) Hall) in Hd.
    apply (ge_later (Some y)); [exact Hd | apply Z.leb_refl].
Qed.

Lemma startDate_hd data p :
  startDate data p = hd None (relevantNewMoons data p).
Proof. unfold startDate. now destruct (relevantNewMoons data p). Qed.

(** X11.  On rows in ascending date order the window is the tail of the
    file: the selected moon rows are the rows from some row on up to the
    last one, and so are the selected price rows.  When the start date is
    valid and [0 <= p], the window holds the last [p + 1] New Moon rows, or
    all of them when the file has fewer. *)
Theorem window_is_a_tail data bitcoinData p :
  ascending data ->
  (exists k, relevantMoonData data p = skipn k data) /\
  (ascending bitcoinData ->
   exists k, relevantBitcoinData data bitcoinData p = skipn k bitcoinData) /\
  (0 <= p -> startDate data p <> None ->
   Z.min (p + 1) (Z.of_nat (List.length (newMoons data))) <=
   Z.of_nat (List.length (newMoons (relevantMoonData data p)))).
Proof.
  intros Hasc.
  assert (T : forall rows, ascending rows ->
              StronglySorted (fun a b => notAfter (Row.date a) (Row.date b)) rows).
  { intros rows H. apply Sorted_StronglySorted; [| exact H].
    intros a b c. apply notAfter_trans. }
  split; [apply relevantRows_suffix; now apply T |].
  split; [intros Hb; apply relevantRows_suffix; now apply T |].
  intros Hp Hstart. unfold relevantMoonData.
  rewrite newMoons_relevantRows.
  rewrite startDate_hd in *. unfold relevantNewMoons in *.
  rewrite slice_from_end in * by exact Hp. unfold lastn in *.
  set (nm := newMoons data) in *.
  set (k := (List.length nm - Z.to_nat (p + 1))%nat) in *.
  pose proof (filter_skipn_length
                (fun d => JS.ge d (hd None (skipn k nm))) k nm) as L.
  rewrite (suffix_in_window nm k (newMoons_sorted data Hasc) Hstart) in L.
  rewrite length_skipn in L. lia.
Qed.

Lemma window_is_a_tail_witness :
  (exists k, relevantMoonData noisyMoon 0 = skipn k noisyMoon) /\
  (ascending scenarioPrice ->
   exists k, relevantBitcoinData noisyMoon scenarioPrice 0 = skipn k scenarioPrice) /\
  (0 <= 0 -> startDate noisyMoon 0 <> None ->
   Z.min (0 + 1) (Z.of_nat (List.length (newMoons noisyMoon))) <=
   Z.of_nat (List.length (newMoons (relevantMoonData noisyMoon 0)))).
Proof.
  apply (window_is_a_tail noisyMoon scenarioPrice 0).
  repeat constructor; vm_compute; discriminate.
Defined.

(** ** Running again *)

(** X12.  Running [processData] again on the state it has just published,
    with the same datasets and period, changes nothing. *)
Theorem processData_idempotent st data bitcoinData p st' :
  processData st data bitcoinData p = Normal st' ->
  processData st' data bitcoinData p = Normal st'.
Proof.
  destruct data as [| row rows]; [intros _; reflexivity |].
  destruct bitcoinData as [| price prices]; [intros _; apply empty_rows_early |].
  rewrite !processData_published by discriminate. trivial.
Qed.

Lemma processData_idempotent_witness :
  processData (published scenarioMoon scenarioPrice 3) scenarioMoon scenarioPrice 3 =
  Normal (published scenarioMoon scenarioPrice 3).
Proof.
  apply (processData_idempotent initialState scenarioMoon scenarioPrice 3).
  apply processData_published; discriminate.
Defined.

(** ** The life of the component *)

Lemma effect_nextView c :
  effect c =
  Normal (Component.make (Component.data c) (Component.bitcoinData c)
            (nextView c) (Component.selectedPeriod c)
            (Component.loading c) (Component.console c)).
Proof.
  unfold effect, nextView.
  destruct (Component.data c) as [| row rows]; [reflexivity |].
  destruct (Component.bitcoinData c) as [| price prices].
  - now rewrite empty_rows_early.
  - now rewrite processData_published by discriminate.
Qed.

Lemma options_parse_back :
  Forall (fun period => parseInt (integerText period) = Some period) periods.
Proof. repeat constructor. Qed.

Lemma option_period value :
  In value (map integerText periods) ->
  exists period, In period periods /\ parseInt value = Some period.
Proof.
  intros H. apply in_map_iff in H. destruct H as [period [<- Hp]].
  exists period. split; [exact Hp |].
  now apply (proj1 (Forall_forall _ _) options_parse_back).
Qed.

Section Life.

Variable parse : string -> list Row.t.

Lemma settled_mounted : settled parse mounted.
Proof.
  split; [| split; [| split]].
  - exists 12. split; [reflexivity |]. cbn. tauto.
  - reflexivity.
  - reflexivity.
  - discriminate.
Qed.

Lemma settled_step c c' : settled parse c -> step parse c c' -> settled parse c'.
Proof.
  intros [[p [Hp Hin]] [Hv [Hm Hl]]] Hstep.
  destruct Hstep as [c mr br c' Hr He | c options selected points value c' Hr Hval He];
    rewrite effect_nextView in He; injection He as <-;
    unfold render in Hr; destruct (Component.loading c) eqn:L;
    try discriminate.
  - rewrite (Hm eq_refl).
    destruct mr as [m |], br as [b |];
      unfold settled, fetchData, nextView, expectedView;
      cbn [Component.data Component.bitcoinData Component.view
           Component.selectedPeriod Component.loading Component.console
           mounted app].
    1: { split; [| split; [| split]].
         - exists 12. split; [reflexivity |]. cbn. tauto.
         - now destruct (parse m), (parse b).
         - discriminate.
         - intros _. left. split; [reflexivity |]. now exists m, b. }
    all: (split; [| split; [| split]]);
      [ exists 12; split; [reflexivity |]; cbn; tauto
      | reflexivity
      | discriminate
      | intros _; right; repeat split ].
  - injection Hr as <- _ _.
    destruct (option_period value Hval) as [q [Hq Eq]].
    unfold settled, onChange, nextView, expectedView in *.
    cbn [Component.data Component.bitcoinData Component.view
         Component.selectedPeriod Component.loading Component.console] in *.
    rewrite Eq. split; [| split; [| split]].
    + now exists q.
    + rewrite Hv.
      now destruct (Component.data c), (Component.bitcoinData c).
    + discriminate.
    + intros _. now apply Hl.
Qed.

Lemma reachable_settled c : reachable parse c -> settled parse c.
Proof.
  induction 1 as [| c c' _ IH Hstep];
    [apply settled_mounted | now apply (settled_step c)].
Qed.

End Life.

Lemma reachable_loadedScenario : reachable parseScenario loadedScenario.
Proof.
  apply (reachable_step parseScenario mounted); [constructor |].
  apply (step_fetched parseScenario mounted (Some "moon"%string)
           (Some "price"%string)); reflexivity.
Qed.




(** X15.  The component never throws and never gets stuck: in every state
    it reaches, the settling of the reads (while the loading notice is
    shown) and the choice of any option of the selector (once it is on the
    screen) lead to a next state. *)
Theorem component_makes_progress parse c :
  reachable parse c ->
  (render c = LoadingScreen ->
   forall moonResponse bitcoinResponse,
     exists c', effect (fetchData parse moonResponse bitcoinResponse c) = Normal c'
                /\ step parse c c' /\ render c' <> LoadingScreen) /\
  (forall options selected points value,
     render c = ChartScreen options selected points -> In value options ->
     exists c', effect (onChange value c) = Normal c' /\ step parse c c' /\
                exists p, Component.selectedPeriod c' = Some p /\
                          integerText p = value).
Proof.
  intros Hr. split.
  - intros Hl mr br. eexists. split; [apply effect_nextView |].
    split.
    + apply (step_fetched parse c mr br); [exact Hl | apply effect_nextView].
    + unfold render. cbn [Component.loading].
      destruct mr, br; cbn [fetchData Component.loading]; discriminate.
  - intros options selected points value Hc Hv.
    eexists. split; [apply effect_nextView |]. split.
    + apply (step_changed parse c options selected points value);
        [exact Hc | exact Hv | apply effect_nextView].
    + unfold render in Hc. destruct (Component.loading c); [discriminate |].
      injection Hc as <- _ _.
      change (In value (map integerText periods)) in Hv.
      apply in_map_iff in Hv. destruct Hv as [q [<- Hq]].
      exists q. cbn [onChange Component.selectedPeriod]. split; [| reflexivity].
      now apply (proj1 (Forall_forall _ _) options_parse_back).
Qed.

Lemma component_makes_progress_witness :
  (render loadedScenario = LoadingScreen ->
   forall moonResponse bitcoinResponse,
     exists c', effect (fetchData parseScenario moonResponse bitcoinResponse loadedScenario) = Normal c'
                /\ step parseScenario loadedScenario c' /\ render c' <> LoadingScreen) /\
  (forall options selected points value,
     render loadedScenario = ChartScreen options selected points -> In value options ->
     exists c', effect (onChange value loadedScenario) = Normal c' /\
                step parseScenario loadedScenario c' /\
                exists p, Component.selectedPeriod c' = Some p /\
                          integerText p = value).
Proof.
  apply (component_makes_progress parseScenario loadedScenario).
  exact reachable_loadedScenario.
Defined.

(** ** Renders and effects, one at a time *)

Lemma queued_shape s :
  queued s ->
  Live.queue s = [] \/
  Live.queue s = [SetLoading false] \/
  (Component.bitcoinData (Live.cells s) = [] /\
   ((exists b, Live.queue s = [SetBitcoinData b; SetLoading false]) \/
    (exists a b,
       Live.queue s = [SetData a; SetBitcoinData b; SetLoading false]))).
Proof.
  unfold queued.
  destruct (Live.queue s)
    as [| [a | b | []] [| [a' | b' | []] [| [a'' | b'' | []] [| u rest]]]];
    try contradiction; eauto 7.
Qed.

Lemma expectedView_fresh c :
  (Component.data c = [] \/ Component.bitcoinData c = [] ->
   Component.view c = initialState) ->
  nextView c = expectedView c.
Proof.
  unfold nextView, expectedView. intros H.
  destruct (Component.data c) as [| row rows]; [apply H; now left |].
  destruct (Component.bitcoinData c); [apply H; now right | reflexivity].
Qed.

Lemma steady_upToDate s p :
  steady s -> Live.pending s = false ->
  Component.selectedPeriod (Live.cells s) = Some p ->
  upToDate (Live.cells s) p.
Proof.
  intros [_ [Hempty [Hfresh _]]] Hpend Hp. specialize (Hfresh Hpend).
  split; [exact Hempty |]. intros Hd Hb.
  rewrite processData_published by assumption. rewrite Hfresh.
  unfold expectedView. rewrite Hp. cbn [periodOf].
  destruct (Component.data (Live.cells s)); [contradiction |].
  destruct (Component.bitcoinData (Live.cells s)); [contradiction |].
  reflexivity.
Qed.

Section Steady.

Variable parse : string -> list Row.t.

Lemma steady_first : steady firstRender.
Proof.
  split; [| split; [| split]].
  - exists 12. split; [reflexivity |]. cbn. tauto.
  - reflexivity.
  - discriminate.
  - intros _. split; reflexivity.
Qed.

Lemma steady_effect s c' :
  steady s -> effect (Live.cells s) = Normal c' ->
  steady (Live.make c' false (Live.queue s)).
Proof.
  intros [Hp [Hempty [_ Hq]]] He.
  rewrite effect_nextView in He. injection He as <-.
  pose proof (expectedView_fresh _ Hempty) as Hnext.
  destruct s as [c pending queue].
  unfold steady, queued in *.
  cbn [Live.cells Live.pending Live.queue Component.data
       Component.bitcoinData Component.view Component.selectedPeriod
       Component.loading Component.console] in *.
  split; [exact Hp |]. split; [| split; [| exact Hq]].
  - intros E. unfold nextView.
    destruct (Component.data c); [now apply Hempty |].
    destruct (Component.bitcoinData c); [now apply Hempty |].
    destruct E; discriminate.
  - intros _. rewrite Hnext. unfold expectedView.
    cbn [Component.data Component.bitcoinData Component.selectedPeriod].
    reflexivity.
Qed.

Lemma steady_live s s' : steady s -> live parse s s' -> steady s'.
Proof.
  intros Hs Hlive.
  destruct Hlive
    as [s c' Hpend He | s mr br Hpend Hqueue Hload
       | s now later Hpend Hqueue Hnow
       | s options selected points value Hpend Hqueue Hr Hval].
  - now apply steady_effect.
  - destruct Hs as [Hp [Hempty [Hfresh Hq]]].
    unfold queued in Hq. rewrite Hqueue in Hq.
    destruct (Hq Hload) as [Ed Eb].
    destruct s as [c pending queue].
    cbn [Live.cells Live.pending Live.queue] in *.
    unfold steady, queued.
    destruct mr as [m |], br as [b |];
      cbn [Live.cells Live.pending Live.queue setterCalls logged
           Component.data Component.bitcoinData Component.view
           Component.selectedPeriod Component.loading Component.console];
      (split; [exact Hp |]); (split; [exact Hempty |]);
      (split; [| first [exact Eb | exact I]]);
      intros _; rewrite (Hfresh Hpend); unfold expectedView;
      reflexivity.
  - destruct Hs as [Hp [Hempty [Hfresh Hq]]].
    apply queued_shape in Hq. specialize (Hfresh Hpend).
    destruct s as [c pending queue].
    cbn [Live.cells Live.pending Live.queue] in *. subst queue.
    unfold steady, queued.
    destruct Hq as [E | [E | [Eb [[b E] | [a [b E]]]]]];
      destruct now as [| u1 [| u2 [| u3 [| u4 now]]]];
      try contradiction; cbn [app] in E; try discriminate E;
      injection E as ?; subst;
      repeat match goal with
             | H : [] = _ ++ _ |- _ => symmetry in H
             | H : _ ++ _ = [] |- _ => apply app_eq_nil in H; destruct H
             | H : _ :: _ = [] |- _ => discriminate H
             end; subst;
      cbn [Live.cells Live.pending Live.queue fold_left applyUpdate existsb
           writesDependency orb Component.data Component.bitcoinData
           Component.view Component.selectedPeriod Component.loading
           Component.console] in *;
      (split; [exact Hp |]);
      (split; [first [ exact Hempty
                     | intros _; apply Hempty; now right ] |]);
      (split; [first [ discriminate
                     | intros _; rewrite Hfresh;
                       unfold expectedView; reflexivity ] |]);
      first [ exact I | exact Eb | reflexivity | discriminate
            | intros; discriminate ].
  - destruct Hs as [Hp [Hempty [Hfresh Hq]]].
    unfold render in Hr.
    destruct (Component.loading (Live.cells s)) eqn:L; [discriminate |].
    injection Hr as <- _ _.
    destruct (option_period value Hval) as [q [Hin Eq]].
    destruct s as [c pending queue].
    unfold steady, queued, onChange.
    cbn [Live.cells Live.pending Live.queue Component.data
         Component.bitcoinData Component.view Component.selectedPeriod
         Component.loading Component.console] in *.
    rewrite Eq, L. split; [now exists q |].
    split; [exact Hempty |]. split; discriminate.
Qed.

Lemma reaches_steady s : reaches parse s -> steady s.
Proof.
  induction 1 as [| s s' _ IH Hlive];
    [apply steady_first | now apply (steady_live s)].
Qed.

(** The states at rest of [reachable] are states between two renders. *)
Lemma reachable_reaches c :
  reachable parse c -> reaches parse (Live.make c false []).
Proof.
  induction 1 as [| c c' Hc IH Hstep].
  - apply (reaches_live parse firstRender); [constructor |].
    exact (live_effect parse firstRender mounted eq_refl eq_refl).
  - destruct (reachable_settled parse c Hc) as [_ [_ [Hm _]]].
    destruct Hstep
      as [c mr br c' Hr He | c options selected points value c' Hr Hval He].
    + unfold render in Hr.
      destruct (Component.loading c) eqn:L; [| discriminate].
      rewrite (Hm eq_refl) in *. clear Hm L Hr Hc.
      pose proof (reaches_live parse _ _ IH
                    (live_settled parse (Live.make mounted false []) mr br
                       eq_refl eq_refl eq_refl)) as H1.
      cbn [Live.cells] in H1.
      pose proof (reaches_live parse _ _ H1
                    (live_rendered parse
                       (Live.make (logged mr br mounted) false
                          (setterCalls parse mr br))
                       (setterCalls parse mr br) []
                       eq_refl (eq_sym (app_nil_r _))
                       ltac:(destruct mr, br; discriminate))) as H2.
      cbn [Live.cells] in H2.
      destruct mr as [m |], br as [b |];
        cbn [fetchData setterCalls logged fold_left applyUpdate existsb
             writesDependency orb mounted Component.data
             Component.bitcoinData Component.view Component.selectedPeriod
             Component.loading Component.console app] in *.
      * exact (reaches_live parse _ _ H2
                 (live_effect parse (Live.make _ true []) c' eq_refl He)).
      * injection He as <-. exact H2.
      * injection He as <-. exact H2.
      * injection He as <-. exact H2.
    + pose proof (reaches_live parse _ _ IH
                    (live_changed parse (Live.make c false []) options
                       selected points value eq_refl eq_refl Hr Hval)) as H1.
      exact (reaches_live parse _ _ H1
               (live_effect parse (Live.make _ true []) c' eq_refl He)).
Qed.

End Steady.

Lemma reaches_staleThreeCycles : reaches parseScenario staleThreeCycles.
Proof.
  apply (reaches_live parseScenario (Live.make loadedScenario false [])).
  - apply reachable_reaches, reachable_loadedScenario.
  - apply (live_changed parseScenario (Live.make loadedScenario false [])
             (map integerText periods) (Some 12)
             (processedData (published scenarioMoon scenarioPrice 12))
             "3"%string); [reflexivity | reflexivity | reflexivity |].
    cbn. tauto.
Qed.

(** X13.  The chart is stale for one render at most.  Between any two
    renders the selected period is one of the selector's ten.  When no
    effect is pending, the table and the period average are those of the
    datasets and the period on the screen.  When the effect is pending
    (the datasets or the period have just changed and the table is the one
    of before), the one thing that can happen is that the effect runs, and
    it leaves the table and the period average of the datasets and the
    period on the screen. *)
Theorem chart_stale_one_render parse s :
  reaches parse s ->
  exists p,
    Component.selectedPeriod (Live.cells s) = Some p /\ In p periods /\
    (Live.pending s = false -> upToDate (Live.cells s) p) /\
    (Live.pending s = true ->
     exists c',
       effect (Live.cells s) = Normal c' /\
       live parse s (Live.make c' false (Live.queue s)) /\
       (forall s', live parse s s' -> s' = Live.make c' false (Live.queue s)) /\
       Component.selectedPeriod c' = Some p /\
       upToDate c' p).
Proof.
  intros Hr. pose proof (reaches_steady parse s Hr) as Hs.
  destruct Hs as [[p [Hp Hin]] Hrest].
  exists p. split; [exact Hp |]. split; [exact Hin |]. split.
  - intros Hpend.
    apply (steady_upToDate s p); [| exact Hpend | exact Hp].
    split; [now exists p | exact Hrest].
  - intros Hpend.
    assert (Hs : steady s) by (split; [now exists p | exact Hrest]).
    pose proof (effect_nextView (Live.cells s)) as He.
    eexists. split; [exact He |].
    split; [now apply live_effect |]. split.
    + intros s' Hlive.
      destruct Hlive as [s c' _ He' | s mr br H | s now later H | s o sel pts v H];
        congruence.
    + split; [exact Hp |].
      apply (steady_upToDate (Live.make _ false (Live.queue s)) p);
        [| reflexivity | exact Hp].
      now apply (steady_effect s).
Qed.

Lemma chart_stale_one_render_witness :
  Component.view (Live.cells staleThreeCycles) =
    published scenarioMoon scenarioPrice 12 /\
  exists p,
    Component.selectedPeriod (Live.cells staleThreeCycles) = Some p /\
    In p periods /\
    (Live.pending staleThreeCycles = false ->
     upToDate (Live.cells staleThreeCycles) p) /\
    (Live.pending staleThreeCycles = true ->
     exists c',
       effect (Live.cells staleThreeCycles) = Normal c' /\
       live parseScenario staleThreeCycles
         (Live.make c' false (Live.queue staleThreeCycles)) /\
       (forall s', live parseScenario staleThreeCycles s' ->
                   s' = Live.make c' false (Live.queue staleThreeCycles)) /\
       Component.selectedPeriod c' = Some p /\
       upToDate c' p).
Proof.
  split; [reflexivity |].
  apply (chart_stale_one_render parseScenario staleThreeCycles).
  exact reaches_staleThreeCycles.
Defined.

(** ** Reading back what [toFixed] prints *)

Lemma digitRun_digit c v acc count s :
  decimalDigit c = Some v ->
  digitRun acc count (String c s) = digitRun (acc * 10 + v) (S count) s.
Proof. intros H. cbn [digitRun]. now rewrite H. Qed.

Lemma digitRun_stop acc count s :
  noDigitAhead s -> digitRun acc count s = (acc, count, s).
Proof.
  destruct s as [| c rest]; [reflexivity |].
  cbn [noDigitAhead digitRun]. now intros ->.
Qed.

Lemma digitRun_uint d : forall acc count rest,
  noDigitAhead rest ->
  digitRun acc count (NilEmpty.string_of_uint d ++ rest) =
  (uintValue acc d, (count + Decimal.nb_digits d)%nat, rest).
Proof.
  induction d; intros acc count rest Hrest;
    cbn [NilEmpty.string_of_uint String.append uintValue Decimal.nb_digits].
  - rewrite Nat.add_0_r. now apply digitRun_stop.
  - rewrite (digitRun_digit _ 0) by reflexivity.
    rewrite IHd by exact Hrest. f_equal. f_equal. lia.
  - rewrite (digitRun_digit _ 1) by reflexivity.
    rewrite IHd by exact Hrest. f_equal. f_equal. lia.
  - rewrite (digitRun_digit _ 2) by reflexivity.
    rewrite IHd by exact Hrest. f_equal. f_equal. lia.
  - rewrite (digitRun_digit _ 3) by reflexivity.
    rewrite IHd by exact Hrest. f_equal. f_equal. lia.
  - rewrite (digitRun_digit _ 4) by reflexivity.
    rewrite IHd by exact Hrest. f_equal. f_equal. lia.
  - rewrite (digitRun_digit _ 5) by reflexivity.
    rewrite IHd by exact Hrest. f_equal. f_equal. lia.
  - rewrite (digitRun_digit _ 6) by reflexivity.
    rewrite IHd by exact Hrest. f_equal. f_equal. lia.
  - rewrite (digitRun_digit _ 7) by reflexivity.
    rewrite IHd by exact Hrest. f_equal. f_equal. lia.
  - rewrite (digitRun_digit _ 8) by reflexivity.
    rewrite IHd by exact Hrest. f_equal. f_equal. lia.
  - rewrite (digitRun_digit _ 9) by reflexivity.
    rewrite IHd by exact Hrest. f_equal. f_equal. lia.
Qed.

Lemma uintValue_acc d : forall acc,
  Z.pos (Pos.of_uint_acc d acc) = uintValue (Z.pos acc) d.
Proof.
  induction d; intros acc; cbn [Pos.of_uint_acc uintValue];
    rewrite ?IHd; try reflexivity; f_equal; lia.
Qed.

Lemma uintValue_of_uint d : uintValue 0 d = Z.of_N (Pos.of_uint d).
Proof.
  induction d; cbn [Pos.of_uint uintValue]; try reflexivity;
    try (rewrite <- IHd; reflexivity);
    cbn [Z.of_N]; rewrite uintValue_acc; reflexivity.
Qed.

Lemma uintValue_to_uint n : uintValue 0 (N.to_uint n) = Z.of_N n.
Proof.
  rewrite uintValue_of_uint. f_equal. apply DecimalN.Unsigned.of_to.
Qed.

Lemma digitRun_shift s : forall acc count,
  digitRun acc count s =
  let '(v, k, r) := digitRun 0 0 s in
  (acc * 10 ^ Z.of_nat k + v, (count + k)%nat, r).
Proof.
  induction s as [| c rest IH]; intros acc count; cbn [digitRun].
  - cbn. f_equal. f_equal; lia.
  - destruct (decimalDigit c) as [d |].
    + rewrite (IH (acc * 10 + d) (S count)), (IH (0 * 10 + d) 1%nat).
      destruct (digitRun 0 0 rest) as [[v k] r].
      f_equal. f_equal; [| lia].
      rewrite Nat2Z.inj_add, Z.pow_add_r by lia.
      change (10 ^ Z.of_nat 1) with 10. ring.
    + cbn. f_equal. f_equal; lia.
Qed.

Lemma digits_head n :
  exists c v r, Fixed.digits n = String c r /\ decimalDigit c = Some v.
Proof.
  unfold Fixed.digits.
  destruct (N.to_uint (Z.to_N n)); cbn;
    do 3 eexists; split; reflexivity.
Qed.

Lemma digits_run n rest :
  0 <= n -> noDigitAhead rest ->
  exists k, digitRun 0 0 (Fixed.digits n ++ rest) = (n, k, rest).
Proof.
  intros Hn Hrest. unfold Fixed.digits.
  pose proof (uintValue_to_uint (Z.to_N n)) as Hv.
  rewrite Z2N.id in Hv by exact Hn.
  destruct (N.to_uint (Z.to_N n)) as [| u | u | u | u | u | u | u | u | u | u];
    [| eexists;
       match goal with
       | |- context [NilZero.string_of_uint ?d] =>
           change (NilZero.string_of_uint d) with (NilEmpty.string_of_uint d)
       end;
       rewrite digitRun_uint by exact Hrest; rewrite Hv; reflexivity ..].
  cbn [uintValue] in Hv. subst n. exists 1%nat.
  cbn [NilZero.string_of_uint String.append].
  rewrite (digitRun_digit _ 0) by reflexivity. now apply digitRun_stop.
Qed.

Lemma two_digits_run v :
  0 <= v < 100 -> digitRun 0 0 (Fixed.two_digits v) = (v, 2%nat, ""%string).
Proof.
  intros H. rewrite <- (Z2Nat.id v) by lia.
  assert (Hk : (Z.to_nat v < 100)%nat) by lia.
  generalize dependent (Z.to_nat v). clear. intros k Hk.
  do 100 (destruct k as [| k]; [reflexivity |]). lia.
Qed.

Lemma trimStart_keep c r :
  space1 c = false -> code c < 128 -> trimStart (String c r) = String c r.
Proof.
  intros H1 H2. cbn [trimStart]. rewrite H1.
  destruct r as [| b r2]; [reflexivity |].
  assert (E2 : space2 c b = false).
  { unfold space2. replace (code c =? 194) with false by lia. reflexivity. }
  rewrite E2. destruct r2 as [| d r3]; [reflexivity |].
  assert (E3 : space3 c b d = false).
  { unfold space3.
    replace (code c =? 225) with false by lia.
    replace (code c =? 226) with false by lia.
    replace (code c =? 227) with false by lia.
    replace (code c =? 239) with false by lia. reflexivity. }
  now rewrite E3.
Qed.

Lemma digit_code c v : decimalDigit c = Some v -> 48 <= code c <= 57.
Proof.
  unfold decimalDigit.
  destruct ((48 <=? code c) && (code c <=? 57)) eqn:E; [| discriminate].
  intros _. apply andb_prop in E. lia.
Qed.

Lemma trimStart_digit c v r :
  decimalDigit c = Some v -> trimStart (String c r) = String c r.
Proof.
  intros H. apply digit_code in H.
  apply trimStart_keep; [unfold space1 | lia].
  replace (9 <=? code c) with true by lia.
  replace (code c <=? 13) with false by lia.
  replace (code c =? 32) with false by lia. reflexivity.
Qed.

Lemma splitSign_digit c v r :
  decimalDigit c = Some v -> splitSign (String c r) = (false, String c r).
Proof.
  intros H.
  destruct c as [[] [] [] [] [] [] [] []]; try reflexivity;
    vm_compute in H; discriminate H.
Qed.

Lemma startsWith_digit c v r :
  decimalDigit c = Some v -> startsWith "Infinity" (String c r) = false.
Proof.
  intros H. unfold startsWith.
  cbn [String.length substring String.eqb].
  destruct (Ascii.eqb_spec c "I") as [-> | _]; [| reflexivity].
  vm_compute in H. discriminate H.
Qed.

Lemma magnitudeOf_decimal q v :
  0 <= q -> 0 <= v < 100 ->
  magnitudeOf (Fixed.digits q ++ "." ++ Fixed.two_digits v) =
  Fixed.nearest (q * 100 + v) 100.
Proof.
  intros Hq Hv. unfold magnitudeOf.
  destruct (digits_head q) as (c & d & r & E & Hc).
  assert (Hs : startsWith "Infinity"
                 (Fixed.digits q ++ "." ++ Fixed.two_digits v) = false).
  { rewrite E. exact (startsWith_digit c d _ Hc). }
  rewrite Hs.
  destruct (digits_run q ("." ++ Fixed.two_digits v) Hq) as [k Hk];
    [reflexivity |].
  rewrite Hk.
  change (fractionOf q ("." ++ Fixed.two_digits v))
    with (digitRun q 0 (Fixed.two_digits v)).
  rewrite digitRun_shift, (two_digits_run v Hv).
  rewrite Nat.add_comm. reflexivity.
Qed.

Lemma parseFloatText_decimal neg n :
  0 <= n ->
  parseFloatText (Fixed.show (Fixed.Decimal neg n)) =
  Fixed.Number (Fixed.Decimal neg n).
Proof.
  intros Hn. cbn [Fixed.show Fixed.Number].
  assert (Hq : 0 <= n / 100) by (apply Z.div_pos; lia).
  assert (Hv : 0 <= n mod 100 < 100) by (apply Z.mod_pos_bound; lia).
  pose proof (magnitudeOf_decimal (n / 100) (n mod 100) Hq Hv) as Hm.
  replace (n / 100 * 100 + n mod 100) with n in Hm
    by (rewrite (Z.div_mod n 100) at 1 by lia; ring).
  unfold parseFloatText. destruct neg.
  - change ("-" ++ ?s)%string with (String "-" s).
    rewrite trimStart_keep by (vm_compute; reflexivity).
    cbn [splitSign]. now rewrite Hm.
  - change ("" ++ ?s)%string with s.
    destruct (digits_head (n / 100)) as (c & d & r & E & Hc).
    rewrite E in *. cbn [String.append] in *.
    rewrite (trimStart_digit c d) by exact Hc.
    rewrite (splitSign_digit c d) by exact Hc. exact Hm.
Qed.

Lemma parseFloatText_plain f :
  plain f -> parseFloatText (Fixed.show f) = Fixed.Number f.
Proof.
  destruct f as [| [] | neg n | neg m e]; cbn [plain]; intros H.
  - reflexivity.
  - reflexivity.
  - reflexivity.
  - now apply parseFloatText_decimal.
  - destruct H.
Qed.

Lemma hundredths_nonneg m e : 0 <= Fixed.hundredths m e.
Proof.
  unfold Fixed.hundredths. destruct (0 <=? e) eqn:E.
  - apply Z.leb_le in E.
    assert (0 < 2 ^ e) by (apply Z.pow_pos_nonneg; lia). nia.
  - apply Z.div_pos.
    + assert (0 <= 2 ^ (- e)) by (apply Z.pow_nonneg; lia). lia.
    + apply Z.pow_pos_nonneg; lia.
Qed.

Lemma of_float_plain x : exponentForm x = false -> plain (Fixed.of_float x).
Proof.
  unfold exponentForm, Fixed.of_float.
  destruct (Prim2SF x) as [s | s | | s m e]; cbn [plain]; try easy.
  destruct (1e21 <=? abs x)%float; [discriminate |].
  intros _. apply hundredths_nonneg.
Qed.

Lemma parseFloat_shown x :
  exponentForm x = false ->
  parseFloatText (toFixed2 x) = Fixed.Number (Fixed.of_float x).
Proof.
  intros H. apply parseFloatText_plain, of_float_plain, H.
Qed.

(** X16.  [parseFloat] reads a text of [toFixed(2)] back to the number the
    text stands for, the one [Number] makes of it: this holds for NaN, the
    infinities and every number that is printed without exponent. *)
Theorem parseFloat_reads_toFixed x :
  exponentForm x = false ->
  parseFloatText (toFixed2 x) = Fixed.Number (Fixed.of_float x).
Proof.
  intros H. apply parseFloatText_plain, of_float_plain, H.
Qed.

Lemma parseFloat_reads_toFixed_witness :
  parseFloatText (toFixed2 2.254) = Fixed.Number (Fixed.of_float 2.254) /\
  toFixed2 2.254 = "2.25"%string /\
  parseFloatText (toFixed2 (-0.001)) = (-0)%float.
Proof.
  split; [apply (parseFloat_reads_toFixed 2.254); reflexivity |].
  split; reflexivity.
Defined.

(** ** [parseInt] on the text of an integer *)

Lemma splitRadix_uint d :
  splitRadix (NilZero.string_of_uint d) = (false, NilZero.string_of_uint d).
Proof.
  destruct d as [| u | u | u | u | u | u | u | u | u | u]; try reflexivity.
  destruct u; reflexivity.
Qed.

Lemma readDigits_uint d : forall acc,
  readDigits decimalDigit 10 (Some acc) (NilEmpty.string_of_uint d) =
  Some (uintValue acc d).
Proof.
  induction d; intros acc; cbn [NilEmpty.string_of_uint uintValue];
    [reflexivity | ..];
    cbn [readDigits]; vm_compute (decimalDigit _); apply IHd.
Qed.

Lemma readDigits_digits n :
  0 <= n -> readDigits decimalDigit 10 None (Fixed.digits n) = Some n.
Proof.
  intros Hn. unfold Fixed.digits.
  pose proof (uintValue_to_uint (Z.to_N n)) as Hv.
  rewrite Z2N.id in Hv by exact Hn.
  destruct (N.to_uint (Z.to_N n)) as [| u | u | u | u | u | u | u | u | u | u];
    [cbn [uintValue] in Hv; subst n; reflexivity | ..];
    rewrite <- Hv;
    cbn [NilZero.string_of_uint NilEmpty.string_of_uint uintValue];
    cbn [readDigits]; vm_compute (decimalDigit _); apply readDigits_uint.
Qed.

Lemma parseInt_digits n :
  0 <= n ->
  parseInt (Fixed.digits n) = Some n /\
  parseInt ("-" ++ Fixed.digits n) = Some (- n).
Proof.
  intros Hn.
  destruct (digits_head n) as (c & v & r & E & Hc).
  assert (Ht : trimStart (Fixed.digits n) = Fixed.digits n)
    by (rewrite E; exact (trimStart_digit c v r Hc)).
  assert (Hs : splitSign (Fixed.digits n) = (false, Fixed.digits n))
    by (rewrite E; exact (splitSign_digit c v r Hc)).
  assert (Hr : splitRadix (Fixed.digits n) = (false, Fixed.digits n))
    by apply splitRadix_uint.
  pose proof (readDigits_digits n Hn) as Hd.
  unfold parseInt. split.
  - now rewrite Ht, Hs, Hr, Hd.
  - change ("-" ++ Fixed.digits n)%string with (String "-" (Fixed.digits n)).
    rewrite trimStart_keep by (vm_compute; reflexivity).
    cbn [splitSign]. now rewrite Hr, Hd.
Qed.

(** X17.  [parseInt] reads the text of an integer back to that integer:
    whatever periods the selector offers, the option the user picks arrives
    in [selectedPeriod] as the number it was rendered from.  (Integers
    below 2^53 in magnitude are the ones a JavaScript number holds
    exactly.) *)
Theorem parseInt_reads_integer n c :
  - 2 ^ 53 < n < 2 ^ 53 ->
  Component.selectedPeriod (onChange (integerText n) c) = Some n.
Proof.
  intros _. unfold onChange, integerText. cbn [Component.selectedPeriod].
  destruct (n <? 0) eqn:E.
  - apply Z.ltb_lt in E.
    destruct (parseInt_digits (- n)) as [_ H]; [lia |].
    rewrite H. f_equal. lia.
  - apply Z.ltb_ge in E. now destruct (parseInt_digits n E) as [H _].
Qed.

Lemma parseInt_reads_integer_witness :
  Component.selectedPeriod (onChange (integerText 120) mounted) = Some 120 /\
  integerText 120 = "120"%string.
Proof.
  split; [apply (parseInt_reads_integer 120 mounted); lia | reflexivity].
Defined.

(** ** The tooltip *)

Lemma sub_nan x : (x - nan)%float = nan.
Proof.
  apply Prim2SF_inj. rewrite FloatAxioms.sub_spec.
  destruct (Prim2SF x); reflexivity.
Qed.

Lemma div_nan x : (x / nan)%float = nan.
Proof.
  apply Prim2SF_inj. rewrite FloatAxioms.div_spec.
  destruct (Prim2SF x); reflexivity.
Qed.

Lemma zero_only x :
  (x =? 0)%float = true -> exists s, Prim2SF x = S754_zero s.
Proof.
  rewrite FloatAxioms.eqb_spec.
  destruct (Prim2SF x) as [s | [] | | [] m e]; try discriminate.
  intros _. now exists s.
Qed.

Lemma div_zero x y :
  (y =? 0)%float = true ->
  (x / y)%float = nan \/ (x / y)%float = infinity \/
  (x / y)%float = neg_infinity.
Proof.
  intros H. destruct (zero_only y H) as [s Hy].
  assert (E : Prim2SF (x / y) = S754_nan \/
              Prim2SF (x / y) = S754_infinity false \/
              Prim2SF (x / y) = S754_infinity true).
  { rewrite FloatAxioms.div_spec, Hy.
    destruct (Prim2SF x) as [[] | [] | | [] m e], s; cbn; auto. }
  destruct E as [E | [E | E]]; [left | right; left | right; right];
    apply Prim2SF_inj; rewrite E; reflexivity.
Qed.

Lemma periodMean_nan data bitcoinData p :
  Forall (fun row => JS.isNaN (Row.price_range_percent row) = true)
    (relevantBitcoinData data bitcoinData p) ->
  periodMean data bitcoinData p = nan.
Proof.
  intros Hall. unfold periodMean, periodMean_of.
  induction Hall as [| row rows Hrow _ IH]; [reflexivity |].
  cbn [map filter]. now rewrite Hrow.
Qed.

Lemma avgText_shownAverage valid : avgText valid = toFixed2 (shownAverage valid).
Proof. destruct valid; reflexivity. Qed.

(** X18.  When no price row of the window has a value that passes
    [!isNaN], the tooltip of every point of the chart shows the difference
    to the period average as "NaN" with the percentage "NaN", in red, below
    the figures of the point itself. *)
Theorem tooltip_without_average st data bitcoinData p st' e rest :
  data <> [] -> bitcoinData <> [] ->
  Forall (fun row => JS.isNaN (Row.price_range_percent row) = true)
    (relevantBitcoinData data bitcoinData p) ->
  processData st data bitcoinData p = Normal st' ->
  In e (processedData st') ->
  tooltip (periodAverage st') true (Some (e :: rest)) =
  Some (Tip.make (Entry.phase e) (Entry.avgRange e) (Some "NaN"%string) false
          "NaN" "NaN" (Entry.maxRange e) (Entry.minRange e) (Entry.count e)).
Proof.
  intros Hd Hb Hall Hrun He.
  rewrite (processData_published st data bitcoinData p Hd Hb) in Hrun.
  injection Hrun as <-. unfold published in *.
  rewrite (periodMean_nan _ _ _ Hall) in *.
  cbn [processedData periodAverage] in *.
  apply in_map_iff in He. destruct He as (phase & <- & _).
  unfold tooltip.
  change (Fixed.Number (Fixed.of_float nan)) with nan.
  rewrite sub_nan, div_nan. reflexivity.
Qed.

Lemma tooltip_without_average_witness :
  tooltip (periodAverage blank) true
    (Some [Entry.make "Full Moon" "0.00" "0.00" "0.00" 0
             (Some "NaN"%string)]) =
  Some (Tip.make "Full Moon" "0.00" (Some "NaN"%string) false "NaN" "NaN"
          "0.00" "0.00" 0).
Proof.
  apply (tooltip_without_average initialState moonlessMoon moonlessPrice 12
           blank (Entry.make "Full Moon" "0.00" "0.00" "0.00" 0
                    (Some "NaN"%string)) []);
    [discriminate | discriminate | vm_compute; constructor
    | vm_compute; reflexivity | vm_compute; tauto].
Defined.

(** X19.  When the period average is zero the tooltip divides by it: the
    percentage it shows is never a number, it is "Infinity", "-Infinity" or
    "NaN", whatever the point. *)
Theorem tooltip_zero_average periodAverage e rest :
  (periodAverage =? 0)%float = true ->
  exists tip,
    tooltip periodAverage true (Some (e :: rest)) = Some tip /\
    (Tip.diffPercent tip = "Infinity"%string \/
     Tip.diffPercent tip = "-Infinity"%string \/
     Tip.diffPercent tip = "NaN"%string).
Proof.
  intros H. unfold tooltip. eexists. split; [reflexivity |].
  cbn [Tip.diffPercent].
  destruct (div_zero (parseFloatText (Entry.avgRange e)) periodAverage H)
    as [E | [E | E]]; rewrite E; vm_compute; auto.
Qed.

Lemma tooltip_zero_average_witness :
  exists tip,
    tooltip 0 true
      (Some [Entry.make "Full Moon" "1.50" "2.00" "1.00" 2
               (Some "0.00"%string)]) = Some tip /\
    (Tip.diffPercent tip = "Infinity"%string \/
     Tip.diffPercent tip = "-Infinity"%string \/
     Tip.diffPercent tip = "NaN"%string).
Proof.
  apply (tooltip_zero_average 0
           (Entry.make "Full Moon" "1.50" "2.00" "1.00" 2 (Some "0.00"%string))
           []).
  reflexivity.
Defined.

(** X20.  The tooltip compares the two values as the chart shows them, not
    the means behind them: for the entry of a phase, the difference is the
    [toFixed(2)] of the rounded phase average minus the rounded period
    average, the percentage is taken of the same two numbers, and the
    colour is decided on the difference as printed. *)
Theorem tooltip_compares_shown_values st data bitcoinData p st' phase rest :
  data <> [] -> bitcoinData <> [] ->
  processData st data bitcoinData p = Normal st' ->
  let valid := validRanges (rowsOfPhase phase (relevantMoonData data p)) in
  let shown := Fixed.Number (Fixed.of_float (shownAverage valid)) in
  let average :=
    Fixed.Number (Fixed.of_float (periodMean data bitcoinData p)) in
  exponentForm (shownAverage valid) = false ->
  exists tip,
    tooltip (periodAverage st') true
      (Some (phaseSummary (periodMean data bitcoinData p)
               (relevantMoonData data p) phase :: rest)) = Some tip /\
    Tip.average tip = toFixed2 (shownAverage valid) /\
    Tip.diff tip = toFixed2 (shown - average) /\
    Tip.diffPercent tip = toFixed1 ((shown / average - 1) * 100) /\
    Tip.samples tip = List.length valid /\
    (exponentForm (shown - average) = false ->
     Tip.green tip =
     (0 <? Fixed.Number (Fixed.of_float (shown - average)))%float).
Proof.
  intros Hd Hb Hrun valid shown average Hplain.
  rewrite (processData_published st data bitcoinData p Hd Hb) in Hrun.
  injection Hrun as <-.
  unfold tooltip, phaseSummary, summary, published.
  cbn [fst snd Entry.avgRange Entry.phase Entry.periodAvg Entry.maxRange
       Entry.minRange Entry.count periodAverage].
  fold valid. rewrite avgText_shownAverage.
  rewrite (parseFloat_shown _ Hplain). fold shown average.
  eexists. split; [reflexivity |].
  cbn [Tip.average Tip.diff Tip.diffPercent Tip.samples Tip.green].
  repeat apply conj; try reflexivity.
  intros Hdiff. now rewrite (parseFloat_shown _ Hdiff).
Qed.

Lemma tooltip_compares_shown_values_witness :
  exists tip,
    tooltip 2.5 true
      (Some [phaseSummary 2.5 scenarioMoon "New Moon"]) = Some tip /\
    Tip.average tip = "2.25"%string /\
    Tip.diff tip = "-0.25"%string /\
    Tip.diffPercent tip = "-10.0"%string /\
    Tip.samples tip = 2%nat /\
    Tip.green tip = false.
Proof.
  destruct (tooltip_compares_shown_values initialState scenarioMoon
              scenarioPrice 1 (published scenarioMoon scenarioPrice 1)
              "New Moon" [])
    as (tip & Htip & Ha & Hdiff & Hpercent & Hn & Hgreen);
    [discriminate | discriminate | vm_compute; reflexivity
    | vm_compute; reflexivity |].
  exists tip. split; [exact Htip |].
  split; [rewrite Ha; vm_compute; reflexivity |].
  split; [rewrite Hdiff; vm_compute; reflexivity |].
  split; [rewrite Hpercent; vm_compute; reflexivity |].
  split; [rewrite Hn; vm_compute; reflexivity |].
  rewrite Hgreen; vm_compute; reflexivity.
Defined.
